(** * verify_password_toggle.py: a Playwright check of a password-visibility toggle

    The script is a straight line of calls into Playwright, [os] and [print],
    wrapped in [try / except Exception / finally] and a [with] block.  The
    embedding keeps every call as an event handed to an environment, and the
    Python control constructs as combinators of a small state-and-exception
    monad.  The first part is generic in the environment; the module [Env]
    then gives one environment in detail (a DOM with accessible labels, a
    file system, standard output). *)

From stdpp Require Import base strings list gmap.
From Stdlib Require Import Ascii String Lia.

Local Open Scope string_scope.
Local Open Scope list_scope.

(** ** Python exceptions *)

(** The classes that matter to the script.  [except Exception] catches every
    class derived from [Exception]; [KeyboardInterrupt], [SystemExit] and
    [GeneratorExit] derive from [BaseException] only. *)
Inductive exn_class :=
| AssertionError
| PlaywrightError
| PlaywrightTimeoutError
| FileExistsError
| FileNotFoundError
| NotADirectoryError
| PermissionError
| BrokenPipeError
| OtherException (name : string)
| KeyboardInterrupt
| SystemExit
| GeneratorExit.

Record exn := Exn { exn_cls : exn_class; exn_msg : string }.

Definition derives_from_Exception (c : exn_class) : bool :=
  match c with
  | KeyboardInterrupt | SystemExit | GeneratorExit => false
  | _ => true
  end.

Definition isinstance_Exception (e : exn) : bool :=
  derives_from_Exception (exn_cls e).

(** [str(e)] *)
Definition str (e : exn) : string := exn_msg e.

(** ** Handles and calls *)

Inductive Browser := chromium_launch (headless : bool).
Inductive Page := new_page_of (b : Browser).

(** A Playwright locator is a lazy description: the page it queries, the
    label text, and the [exact] keyword ([None] when the call omits it). *)
Record Locator := { loc_page : Page; loc_label : string; loc_exact : option bool }.

(** Every call the script makes into a library, with the arguments it passes.
    Keyword arguments the script may omit are options. *)
Inductive call :=
| SyncPlaywrightEnter
| SyncPlaywrightExit
| ChromiumLaunch (headless : bool)
| NewPage (b : Browser)
| Goto (pg : Page) (url : string)
| GetByLabel (pg : Page) (text : string) (exact : option bool)
| Fill (l : Locator) (value : string)
| ExpectToHaveAttribute (l : Locator) (name value : string)
| Click (l : Locator)
| ExpectToBeVisible (l : Locator)
| Makedirs (path : string) (exist_ok : bool)
| Screenshot (pg : Page) (path : string) (full_page : option bool)
| Print (line : string)
| BrowserClose (b : Browser).

(** One entry of the run's log: the call and the exception it raised, if any. *)
Definition event : Type := call * option exn.

Inductive outcome (A : Type) :=
| Returns (a : A)
| Raises (e : exn).
Arguments Returns {A} a.
Arguments Raises {A} e.

(** ** The monad: environment state, log of calls, exceptions *)

Section Script.

Context {World : Type}.
Variable exec : call -> World -> option exn * World.

Record state := State { st_world : World; st_log : list event }.

Definition M (A : Type) : Type := state -> outcome A * state.

Definition ret {A} (a : A) : M A := fun s => (Returns a, s).

Definition bind {A B} (m : M A) (k : A -> M B) : M B :=
  fun s =>
    match m s with
    | (Returns a, s') => k a s'
    | (Raises e, s') => (Raises e, s')
    end.

Definition perform (c : call) : M unit :=
  fun s =>
    let '(o, w') := exec c (st_world s) in
    (match o with None => Returns tt | Some e => Raises e end,
     State w' (st_log s ++ [(c, o)])).

Notation "x <- m ;; k" := (bind m (fun x => k))
  (at level 100, m at next level, right associativity).
Notation "m ;;; k" := (bind m (fun _ => k))
  (at level 100, right associativity).

(** [try: body / except Exception as e: handler e / finally: final].
    An exception that is not an [Exception] skips the handler.  Whatever the
    outcome of body and handler, [final] runs; if [final] raises, its
    exception replaces the pending outcome. *)
Definition try_except_finally (body : M unit) (handler : exn -> M unit)
    (final : M unit) : M unit :=
  fun s =>
    let '(r, s1) :=
      match body s with
      | (Returns tt, s') => (Returns tt, s')
      | (Raises e, s') =>
          if isinstance_Exception e then handler e s' else (Raises e, s')
      end in
    match final s1 with
    | (Returns tt, s2) => (r, s2)
    | (Raises e, s2) => (Raises e, s2)
    end.

(** [with enter as x: body x].  [exit] stands for [__exit__], which for
    [sync_playwright()] returns [None], so a pending exception is not
    suppressed; an exception of [__exit__] itself replaces it. *)
Definition with_as {A} (enter : M A) (exit : M unit) (body : A -> M unit) : M unit :=
  fun s =>
    match enter s with
    | (Raises e, s1) => (Raises e, s1)
    | (Returns x, s1) =>
        let '(r, s2) := body x s1 in
        match exit s2 with
        | (Returns tt, s3) => (r, s3)
        | (Raises e, s3) => (Raises e, s3)
        end
    end.

(** *** The library calls, as the script spells them *)

Definition page_goto (pg : Page) (url : string) : M unit := perform (Goto pg url).

Definition get_by_label (pg : Page) (text : string) (exact : option bool) : M Locator :=
  perform (GetByLabel pg text exact) ;;;
  ret {| loc_page := pg; loc_label := text; loc_exact := exact |}.

Definition fill (l : Locator) (value : string) : M unit := perform (Fill l value).
Definition expect_to_have_attribute (l : Locator) (name value : string) : M unit :=
  perform (ExpectToHaveAttribute l name value).
Definition click (l : Locator) : M unit := perform (Click l).
Definition expect_to_be_visible (l : Locator) : M unit := perform (ExpectToBeVisible l).
Definition makedirs (path : string) (exist_ok : bool) : M unit :=
  perform (Makedirs path exist_ok).
Definition screenshot (pg : Page) (path : string) (full_page : option bool) : M unit :=
  perform (Screenshot pg path full_page).
Definition print (line : string) : M unit := perform (Print line).
Definition launch (headless : bool) : M Browser :=
  perform (ChromiumLaunch headless) ;;; ret (chromium_launch headless).
Definition new_page (b : Browser) : M Page :=
  perform (NewPage b) ;;; ret (new_page_of b).
Definition browser_close (b : Browser) : M unit := perform (BrowserClose b).
Definition sync_playwright_enter : M unit := perform SyncPlaywrightEnter.
Definition sync_playwright_exit : M unit := perform SyncPlaywrightExit.

(** *** The script *)

Definition verify_password_toggle (page : Page) : M unit :=
  page_goto page "http://localhost:5173/register" ;;;
  password_input <- get_by_label page "Password" (Some true) ;;
  fill password_input "MySecretPass123" ;;;
  expect_to_have_attribute password_input "type" "password" ;;;
  toggle_btn <- get_by_label page "Show password" None ;;
  click toggle_btn ;;;
  expect_to_have_attribute password_input "type" "text" ;;;
  hide_btn <- get_by_label page "Hide password" None ;;
  expect_to_be_visible hide_btn ;;;
  makedirs "/home/jules/verification" true ;;;
  screenshot page "/home/jules/verification/password_toggle.png" None.

Definition failure_message (e : exn) : string := "Verification failed: " ++ str e.

(** The [except] clause of the driver. *)
Definition on_failure (page : Page) (e : exn) : M unit :=
  print (failure_message e) ;;;
  makedirs "/home/jules/verification" true ;;;
  screenshot page "/home/jules/verification/failure.png" None.

(** The [try] statement of the driver, lines 34 to 42. *)
Definition guarded_run (browser : Browser) (page : Page) : M unit :=
  try_except_finally
    (verify_password_toggle page ;;; print "Verification successful!")
    (on_failure page)
    (browser_close browser).

Definition main : M unit :=
  with_as sync_playwright_enter sync_playwright_exit (fun _ =>
    browser <- launch true ;;
    page <- new_page browser ;;
    guarded_run browser page).

(** Lines 31 to 33: everything the driver does before its [try]. *)
Definition acquire : M (Browser * Page) :=
  sync_playwright_enter ;;;
  browser <- launch true ;;
  page <- new_page browser ;;
  ret (browser, page).

(** A list of calls performed one after the other, stopping at the first
    that raises. *)
Fixpoint perform_all (cs : list call) : M unit :=
  match cs with
  | [] => ret tt
  | c :: cs' => perform c ;;; perform_all cs'
  end.

Definition start (w : World) : state := State w [].

Definition run {A} (m : M A) (w : World) : outcome A * state := m (start w).

End Script.

Arguments State {World} st_world st_log.
Arguments st_world {World} s.
Arguments st_log {World} s.

(** ** What is read off a finished run *)

Definition calls {World} (s : @state World) : list call := map fst (st_log s).

Definition returned_ok (ev : event) : bool :=
  match snd ev with None => true | Some _ => false end.

Definition is_print (c : call) : bool :=
  match c with Print _ => true | _ => false end.

Definition is_makedirs (c : call) : bool :=
  match c with Makedirs _ _ => true | _ => false end.

Definition is_goto (c : call) : bool :=
  match c with Goto _ _ => true | _ => false end.


(** Status lines that reached standard output: [print] calls that returned. *)
Definition printed_lines (l : list event) : list event :=
  List.filter (fun ev => is_print (fst ev) && returned_ok ev) l.

(** [page.screenshot(full_page=...)]: Playwright documents the keyword as
    "when true, takes a screenshot of the full scrollable page, instead of
    the currently visible viewport; defaults to false". *)
Definition captures_full_page (full_page : option bool) : bool :=
  match full_page with Some b => b | None => false end.

(** ** The steps of the Verification Procedure, as the specification lists them *)

Definition password_locator (page : Page) : Locator :=
  {| loc_page := page; loc_label := "Password"; loc_exact := Some true |}.

Definition toggle_locator (page : Page) : Locator :=
  {| loc_page := page; loc_label := "Show password"; loc_exact := None |}.

Definition hide_locator (page : Page) : Locator :=
  {| loc_page := page; loc_label := "Hide password"; loc_exact := None |}.

(** Navigate, locate input, fill, assert hidden, locate toggle, click, assert
    revealed, assert the alternate label is shown, create the directory,
    capture the screenshot. *)
Definition procedure_steps (page : Page) : list call :=
  [ Goto page "http://localhost:5173/register";
    GetByLabel page "Password" (Some true);
    Fill (password_locator page) "MySecretPass123";
    ExpectToHaveAttribute (password_locator page) "type" "password";
    GetByLabel page "Show password" None;
    Click (toggle_locator page);
    ExpectToHaveAttribute (password_locator page) "type" "text";
    GetByLabel page "Hide password" None;
    ExpectToBeVisible (hide_locator page);
    Makedirs "/home/jules/verification" true;
    Screenshot page "/home/jules/verification/password_toggle.png" None ].

(** The three steps of the driver's [except] clause. *)
Definition handler_steps (page : Page) (e : exn) : list call :=
  [ Print (failure_message e);
    Makedirs "/home/jules/verification" true;
    Screenshot page "/home/jules/verification/failure.png" None ].

Definition returned (c : call) : event := (c, None).

(** How a list of steps shows in the log: all of them, each returned, when
    the outcome is a return; otherwise the steps up to the one that raised,
    which is the last logged. *)
Definition straight_line (steps : list call) (r : outcome unit) (evs : list event) : Prop :=
  match r with
  | Returns _ => evs = map returned steps
  | Raises e =>
      exists n c, steps !! n = Some c /\ evs = map returned (take n steps) ++ [(c, Some e)]
  end.

(** The handles the driver gets from [launch(headless=True)] and [new_page()]. *)
Definition the_browser : Browser := chromium_launch true.
Definition the_page : Page := new_page_of the_browser.

(** Every call the driver can make: the fixed ones, and the failure line,
    whose text depends on the exception caught. *)
Definition main_performs (c : call) : Prop :=
  In c ([ SyncPlaywrightEnter; SyncPlaywrightExit; ChromiumLaunch true;
          NewPage the_browser; BrowserClose the_browser;
          Print "Verification successful!" ]
        ++ procedure_steps the_page
        ++ [ Makedirs "/home/jules/verification" true;
             Screenshot the_page "/home/jules/verification/failure.png" None ])
  \/ exists e, c = Print (failure_message e).

(** What [except Exception as e] makes of a raised [e]: the handler's steps
    when [e] is an [Exception], with the handler's outcome; nothing when it
    is not, and [e] stays pending. *)
Definition caught_by_handler (page : Page) (e : exn) (r : outcome unit)
    (evs : list event) : Prop :=
  if isinstance_Exception e then straight_line (handler_steps page e) r evs
  else evs = [] /\ r = Raises e.

(** What the [try] statement logs between the end of the procedure (outcome
    [rp]) and its [finally] clause, and the outcome [r] then pending: the
    success line alone when it is printed, and otherwise what the [except]
    clause makes of the exception raised by the procedure or by that print. *)
Definition after_procedure (page : Page) (rp r : outcome unit) (evs : list event) : Prop :=
  match rp with
  | Returns _ =>
      (evs = [(Print "Verification successful!", None)] /\ r = Returns tt) \/
      (exists e hevs, evs = (Print "Verification successful!", Some e) :: hevs /\
                      caught_by_handler page e r hevs)
  | Raises e => caught_by_handler page e r evs
  end.

(** ** Text helpers of the environment *)

Definition ascii_lower (c : ascii) : ascii :=
  let n := nat_of_ascii c in
  if (65 <=? n)%nat && (n <=? 90)%nat then ascii_of_nat (n + 32) else c.

Fixpoint to_lower (s : string) : string :=
  match s with
  | EmptyString => EmptyString
  | String c s' => String (ascii_lower c) (to_lower s')
  end.

(** [includes needle hay]: [needle] occurs in [hay] as a contiguous run. *)
Fixpoint includes (needle hay : string) : bool :=
  String.prefix needle hay ||
  match hay with
  | EmptyString => false
  | String _ hay' => includes needle hay'
  end.

(** The proper ancestors of an absolute path, outermost first, the root
    excluded: ["/a/b/c"] gives ["/a"; "/a/b"]. *)
Fixpoint ancestors_from (pre s : string) : list string :=
  match s with
  | EmptyString => []
  | String c s' =>
      let rest := ancestors_from (pre +:+ String c EmptyString) s' in
      if Ascii.eqb c "/"%char && negb (String.eqb pre "") then pre :: rest else rest
  end.

Definition ancestors (path : string) : list string := ancestors_from "" path.

(** [os.path.dirname] on an absolute path without trailing slash. *)
Definition dirname (path : string) : string := List.last (ancestors path) "/".

(** ** One environment in detail *)

Module Env.

(** *** The page: elements with accessible labels *)

(** An element as the automation layer sees it.  [el_labels] are its
    accessible label texts, whitespace already normalised. *)
Record element := Element {
  el_labels : list string;
  el_attrs : list (string * string);
  el_visible : bool;
  el_value : string
}.

(** Playwright's label matcher: with [exact=True] the label must equal the
    text, case-sensitively and as a whole; otherwise the lower-cased label
    must contain the lower-cased text. *)
Definition label_matches (text : string) (exact : option bool) (label : string) : bool :=
  match exact with
  | Some true => String.eqb label text
  | _ => includes (to_lower text) (to_lower label)
  end.

Definition matches (l : Locator) (e : element) : bool :=
  existsb (label_matches (loc_label l) (loc_exact l)) (el_labels e).

Fixpoint resolve_from (i : nat) (l : Locator) (dom : list element) : list nat :=
  match dom with
  | [] => []
  | e :: dom' =>
      if matches l e then i :: resolve_from (S i) l dom' else resolve_from (S i) l dom'
  end.

(** Positions of the elements a locator matches. *)
Definition resolve (l : Locator) (dom : list element) : list nat := resolve_from 0 l dom.

Fixpoint get_attribute (name : string) (attrs : list (string * string)) : option string :=
  match attrs with
  | [] => None
  | (k, v) :: attrs' => if String.eqb k name then Some v else get_attribute name attrs'
  end.

Definition set_value (v : string) (e : element) : element :=
  Element (el_labels e) (el_attrs e) (el_visible e) v.

(** *** The file system *)

Inductive image := Image (full_page : bool) (shown : list element).

Record filesystem := Filesystem {
  fs_dirs : gset string;
  fs_files : gmap string image;
  fs_writable : bool
}.

Definition is_dir (fs : filesystem) (p : string) : bool := bool_decide (p ∈ fs_dirs fs).
Definition is_file (fs : filesystem) (p : string) : bool :=
  match fs_files fs !! p with Some _ => true | None => false end.

(** [os.makedirs(p, exist_ok=...)]: an existing directory is an error only
    without [exist_ok]; a file in the way always is; otherwise the directory
    and its missing ancestors are created when permitted. *)
Definition fs_makedirs (p : string) (exist_ok : bool) (fs : filesystem)
    : option exn * filesystem :=
  if is_dir fs p then
    if exist_ok then (None, fs) else (Some (Exn FileExistsError p), fs)
  else if is_file fs p then (Some (Exn FileExistsError p), fs)
  else if existsb (is_file fs) (ancestors p) then (Some (Exn NotADirectoryError p), fs)
  else if fs_writable fs then
    (None, Filesystem (fs_dirs fs ∪ {[ p ]} ∪ list_to_set (ancestors p))
                      (fs_files fs) (fs_writable fs))
  else (Some (Exn PermissionError p), fs).

(** Writing a file needs its directory; [make_parents] says whether the
    writer creates it first. *)
Definition fs_write (make_parents : bool) (p : string) (img : image) (fs : filesystem)
    : option exn * filesystem :=
  if is_dir fs p then (Some (Exn (OtherException "IsADirectoryError") p), fs)
  else
    let '(o, fs1) :=
      if make_parents then fs_makedirs (dirname p) true fs else (None, fs) in
    match o with
    | Some e => (Some e, fs1)
    | None =>
        if negb (is_dir fs1 (dirname p)) then (Some (Exn FileNotFoundError p), fs1)
        else if fs_writable fs1 then
          (None, Filesystem (fs_dirs fs1) (<[ p := img ]> (fs_files fs1)) (fs_writable fs1))
        else (Some (Exn PermissionError p), fs1)
    end.

(** *** The world *)

Record world := World {
  w_server : string -> option (list element);
  w_on_click : nat -> list element -> list element;
  w_chromium_installed : bool;
  w_browser_open : bool;
  w_page : option (list element);
  w_fs : filesystem;
  w_screenshot_makes_dirs : bool;
  w_stdout_open : bool;
  w_stdout : list string
}.

Definition set_browser (open : bool) (pg : option (list element)) (w : world) : world :=
  World (w_server w) (w_on_click w) (w_chromium_installed w) open pg (w_fs w)
        (w_screenshot_makes_dirs w) (w_stdout_open w) (w_stdout w).

Definition set_dom (dom : list element) (w : world) : world :=
  set_browser (w_browser_open w) (Some dom) w.

Definition set_fs (fs : filesystem) (w : world) : world :=
  World (w_server w) (w_on_click w) (w_chromium_installed w) (w_browser_open w)
        (w_page w) fs (w_screenshot_makes_dirs w) (w_stdout_open w) (w_stdout w).

Definition add_stdout (line : string) (w : world) : world :=
  World (w_server w) (w_on_click w) (w_chromium_installed w) (w_browser_open w)
        (w_page w) (w_fs w) (w_screenshot_makes_dirs w) (w_stdout_open w)
        (w_stdout w ++ [line]).

Definition target_closed : exn :=
  Exn PlaywrightError "Target page, context or browser has been closed".
Definition strict_mode_violation : exn :=
  Exn PlaywrightError "strict mode violation".
Definition timeout_exceeded : exn :=
  Exn PlaywrightTimeoutError "Timeout 30000ms exceeded.".

(** An action or assertion on a locator: Playwright locators are strict, so
    more than one match is an error; no match is [none]. *)
Definition on_single (l : Locator) (none : exn) (w : world)
    (k : nat -> element -> list element -> option exn * world) : option exn * world :=
  match w_page w with
  | None => (Some target_closed, w)
  | Some dom =>
      match resolve l dom with
      | [] => (Some none, w)
      | [i] =>
          match dom !! i with
          | Some e => k i e dom
          | None => (Some none, w)
          end
      | _ => (Some strict_mode_violation, w)
      end
  end.

Definition exec (c : call) (w : world) : option exn * world :=
  match c with
  | SyncPlaywrightEnter => (None, w)
  | SyncPlaywrightExit => (None, set_browser false None w)
  | ChromiumLaunch _ =>
      if w_chromium_installed w then (None, set_browser true None w)
      else (Some (Exn PlaywrightError "Executable doesn't exist"), w)
  | NewPage _ =>
      if w_browser_open w then (None, set_dom [] w) else (Some target_closed, w)
  | Goto _ url =>
      match w_page w with
      | None => (Some target_closed, w)
      | Some _ =>
          match w_server w url with
          | Some dom => (None, set_dom dom w)
          | None => (Some (Exn PlaywrightError "net::ERR_CONNECTION_REFUSED"), w)
          end
      end
  | GetByLabel _ _ _ => (None, w)
  | Fill l v =>
      on_single l timeout_exceeded w
        (fun i e dom => (None, set_dom (<[ i := set_value v e ]> dom) w))
  | ExpectToHaveAttribute l name v =>
      on_single l (Exn AssertionError "Locator expected to have attribute") w
        (fun _ e _ =>
           match get_attribute name (el_attrs e) with
           | Some v' =>
               if String.eqb v' v then (None, w)
               else (Some (Exn AssertionError "Locator expected to have attribute"), w)
           | None => (Some (Exn AssertionError "Locator expected to have attribute"), w)
           end)
  | Click l =>
      on_single l timeout_exceeded w
        (fun i e dom =>
           if el_visible e then (None, set_dom (w_on_click w i dom) w)
           else (Some timeout_exceeded, w))
  | ExpectToBeVisible l =>
      on_single l (Exn AssertionError "Locator expected to be visible") w
        (fun _ e _ =>
           if el_visible e then (None, w)
           else (Some (Exn AssertionError "Locator expected to be visible"), w))
  | Makedirs p exist_ok =>
      let '(o, fs') := fs_makedirs p exist_ok (w_fs w) in (o, set_fs fs' w)
  | Screenshot _ p full_page =>
      match w_page w with
      | None => (Some target_closed, w)
      | Some dom =>
          let '(o, fs') :=
            fs_write (w_screenshot_makes_dirs w) p
                     (Image (captures_full_page full_page) dom) (w_fs w) in
          (o, set_fs fs' w)
      end
  | Print line =>
      if w_stdout_open w then (None, add_stdout line w)
      else (Some (Exn BrokenPipeError "Broken pipe"), w)
  | BrowserClose _ => (None, set_browser false None w)
  end.

(** *** A registration page with a working toggle *)

Definition password_field (type : string) (value : string) : element :=
  Element ["Password"] [("type", type)] true value.

Definition toggle_button (label : string) : element :=
  Element [label] [("type", "button")] true "".

Definition registration_dom : list element :=
  [ password_field "password" ""; toggle_button "Show password" ].

(** Clicking the toggle (element 1) flips the field's type and the label. *)
Definition toggle_on_click (i : nat) (dom : list element) : list element :=
  match i, dom with
  | 1%nat, [f; b] =>
      match get_attribute "type" (el_attrs f) with
      | Some "password" => [ password_field "text" (el_value f); toggle_button "Hide password" ]
      | _ => [ password_field "password" (el_value f); toggle_button "Show password" ]
      end
  | _, _ => dom
  end.

Definition register_url : string := "http://localhost:5173/register".

Definition serve (dom : list element) (url : string) : option (list element) :=
  if String.eqb url register_url then Some dom else None.

Definition empty_fs (writable : bool) : filesystem := Filesystem ∅ ∅ writable.

(** A machine with the application running and a writable home. *)
Definition good_world : world :=
  World (serve registration_dom) toggle_on_click true false None (empty_fs true)
        false true [].

(** The same machine, where the user may not create [/home/jules]. *)
Definition unwritable_world : world :=
  World (serve registration_dom) toggle_on_click true false None (empty_fs false)
        false true [].

(** The application is not running. *)
Definition server_down_world : world :=
  World (fun _ => None) toggle_on_click true false None (empty_fs true) false true [].

(** A page that also carries a hint labelled "Show password requirements". *)
Definition crowded_dom : list element :=
  [ password_field "password" ""; toggle_button "Show password";
    Element ["Show password requirements"] [] true "" ].

End Env.

(** An environment where Ctrl-C arrives during navigation and every other
    call returns. *)
Definition interrupted_at_goto (c : call) (w : unit) : option exn * unit :=
  match c with
  | Goto _ _ => (Some (Exn KeyboardInterrupt ""), w)
  | _ => (None, w)
  end.

(** The state in which the driver of [w] enters its [try] statement. *)
Definition at_try (w : Env.world) : @state Env.world :=
  snd (acquire Env.exec (start w)).

(** What [page.goto] raises in [Env] when the application is down. *)
Definition connection_refused : exn := Exn PlaywrightError "net::ERR_CONNECTION_REFUSED".

(** A [makedirs] on the output directory that returned. *)
Definition makedirs_returned (ev : event) : Prop :=
  fst ev = Makedirs "/home/jules/verification" true -> snd ev = None.

(** What the browser steps of the procedure leave alone: the page stays
    open, and the file system and standard output are not touched. *)
Definition untouched (fs : Env.filesystem) (mk : bool) (s : @state Env.world) : Prop :=
  Env.w_page (st_world s) <> None /\
  Env.w_fs (st_world s) = fs /\
  Env.w_stdout_open (st_world s) = true /\
  Env.w_screenshot_makes_dirs (st_world s) = mk.

(** The outcome left when a cleanup call ([finally], [__exit__]) has run
    with outcome [o] while [r] was pending: an exception of the cleanup call
    replaces [r]. *)
Definition replaced_by (o : option exn) (r : outcome unit) : outcome unit :=
  match o with
  | Some e => Raises e
  | None => r
  end.

(** The events of a log whose call raised. *)
Definition raised_events (l : list event) : list event :=
  List.filter (fun ev => negb (returned_ok ev)) l.

Definition is_screenshot (c : call) : bool :=
  match c with Screenshot _ _ _ => true | _ => false end.

(** An environment where the browser launches but no page can be opened. *)
Definition new_page_fails (c : call) (w : unit) : option exn * unit :=
  match c with
  | NewPage _ => (Some (Exn PlaywrightError "Target page, context or browser has been closed"), w)
  | _ => (None, w)
  end.

(** The working machine with standard output closed. *)
Definition closed_stdout_world : Env.world :=
  Env.World (Env.serve Env.registration_dom) Env.toggle_on_click true false None
            (Env.empty_fs true) false false [].

(** * Properties *)

(** ** The monad and straight-line sequences, for every environment *)

Section ScriptFacts.

Context {World : Type}.
Variable exec : call -> World -> option exn * World.

Ltac step_exec :=
  match goal with
  | |- context [exec ?c ?w] => destruct (exec c w) as [[?e|] ?w] eqn:?; simpl
  end.

Lemma perform_raises c (s : @state World) e w' :
  exec c (st_world s) = (Some e, w') ->
  perform exec c s = (Raises e, State w' (st_log s ++ [(c, Some e)])).
Proof. intros H. unfold perform. now rewrite H. Qed.

Lemma perform_returns c (s : @state World) w' :
  exec c (st_world s) = (None, w') ->
  perform exec c s = (Returns tt, State w' (st_log s ++ [returned c])).
Proof. intros H. unfold perform. now rewrite H. Qed.

(** A sequence of steps leaves in the log exactly what [straight_line] says. *)
Lemma perform_all_log (cs : list call) : forall s : @state World,
  exists evs,
    st_log (snd (perform_all exec cs s)) = st_log s ++ evs /\
    straight_line cs (fst (perform_all exec cs s)) evs.
Proof.
  induction cs as [|c cs IH]; intros s.
  - exists []. simpl. split; [now rewrite app_nil_r | reflexivity].
  - simpl. unfold bind.
    destruct (exec c (st_world s)) as [[e|] w'] eqn:E.
    + rewrite (perform_raises _ _ _ _ E). simpl.
      exists [(c, Some e)]. split; [reflexivity|].
      exists 0%nat, c. split; reflexivity.
    + rewrite (perform_returns _ _ _ E).
      destruct (IH (State w' (st_log s ++ [returned c]))) as (evs & Hlog & Hsl).
      exists (returned c :: evs). split.
      * rewrite Hlog. simpl. now rewrite <- app_assoc.
      * destruct (fst (perform_all exec cs _)) as [[]|e'].
        -- simpl in *. now rewrite Hsl.
        -- destruct Hsl as (n & c' & Hn & Hevs).
           exists (S n), c'. split; [exact Hn|]. simpl. now rewrite Hevs.
Qed.

(** The procedure is the straight-line sequence of its listed steps. *)
Lemma verify_password_toggle_unfold page (s : @state World) :
  verify_password_toggle exec page s = perform_all exec (procedure_steps page) s.
Proof.
  destruct s as [w l].
  unfold verify_password_toggle, procedure_steps, page_goto, get_by_label, fill,
    expect_to_have_attribute, click, expect_to_be_visible, makedirs, screenshot,
    perform_all, bind, perform, ret, password_locator, toggle_locator, hide_locator.
  simpl.
  repeat step_exec; reflexivity.
Qed.

Lemma on_failure_unfold page e (s : @state World) :
  on_failure exec page e s = perform_all exec (handler_steps page e) s.
Proof.
  destruct s as [w l].
  unfold on_failure, handler_steps, print, makedirs, screenshot,
    perform_all, bind, perform, ret.
  simpl.
  repeat step_exec; reflexivity.
Qed.




(** *** Properties kept by every call are kept by the script *)

Definition preserved {A} (P : @state World -> Prop) (m : M A) : Prop :=
  forall s, P s -> P (snd (m s)).

Lemma preserved_ret {A} P (a : A) : preserved P (ret a).
Proof. intros s H. exact H. Qed.

Lemma preserved_bind {A B} P (m : M A) (k : A -> M B) :
  preserved P m -> (forall a, preserved P (k a)) -> preserved P (bind m k).
Proof.
  intros Hm Hk s H. unfold bind. specialize (Hm s H).
  destruct (m s) as [[a|e] s1]; simpl in *; [now apply Hk | exact Hm].
Qed.

Lemma preserved_try P body handler final :
  preserved P body -> (forall e, preserved P (handler e)) -> preserved P final ->
  preserved P (try_except_finally body handler final).
Proof.
  intros Hb Hh Hf s H. unfold try_except_finally. specialize (Hb s H).
  destruct (body s) as [[[]|e] s1]; simpl in *.
  - specialize (Hf s1 Hb). destruct (final s1) as [[[]|?] ?]; exact Hf.
  - destruct (isinstance_Exception e).
    + specialize (Hh e s1 Hb). destruct (handler e s1) as [r s2]. simpl in Hh.
      specialize (Hf s2 Hh). destruct (final s2) as [[[]|?] ?]; exact Hf.
    + specialize (Hf s1 Hb). destruct (final s1) as [[[]|?] ?]; exact Hf.
Qed.

Lemma preserved_with {A} P (enter : M A) exit body :
  preserved P enter -> preserved P exit -> (forall a, preserved P (body a)) ->
  preserved P (with_as enter exit body).
Proof.
  intros He Hx Hb s H. unfold with_as. specialize (He s H).
  destruct (enter s) as [[a|e] s1]; simpl in *; [|exact He].
  specialize (Hb a s1 He). destruct (body a s1) as [r s2]. simpl in Hb.
  specialize (Hx s2 Hb). destruct (exit s2) as [[[]|?] ?]; exact Hx.
Qed.

Lemma preserved_perform_all P (cs : list call) :
  (forall c, In c cs -> preserved P (perform exec c)) -> preserved P (perform_all exec cs).
Proof.
  induction cs as [|c cs IH]; intros H; simpl.
  - apply preserved_ret.
  - apply preserved_bind.
    + apply H. now left.
    + intros _. apply IH. intros c' Hc'. apply H. now right.
Qed.

Lemma preserved_ext {A} P (m m' : M A) :
  (forall s, m s = m' s) -> preserved P m' -> preserved P m.
Proof. intros E H s Hs. rewrite E. now apply H. Qed.

Ltac performs_listed := left; simpl; tauto.

(** The driver with the handles [launch] and [new_page] return written in. *)
Lemma main_unfold (s : @state World) :
  main exec s =
  with_as (perform exec SyncPlaywrightEnter) (perform exec SyncPlaywrightExit)
    (fun _ => bind (perform exec (ChromiumLaunch true)) (fun _ =>
              bind (perform exec (NewPage the_browser)) (fun _ =>
              guarded_run exec the_browser the_page))) s.
Proof.
  destruct s as [w l].
  unfold main, with_as, sync_playwright_enter, sync_playwright_exit, launch, new_page,
    bind, ret, perform, the_page, the_browser.
  cbn [st_world st_log].
  destruct (exec SyncPlaywrightEnter w) as [[e0|] w0];
    cbn [st_world st_log]; [reflexivity|].
  destruct (exec (ChromiumLaunch true) w0) as [[e1|] w1];
    cbn [st_world st_log]; [reflexivity|].
  destruct (exec (NewPage (chromium_launch true)) w1) as [[e2|] w2];
    cbn [st_world st_log]; reflexivity.
Qed.

Lemma preserved_verify P page :
  (forall c, In c (procedure_steps page) -> preserved P (perform exec c)) ->
  preserved P (verify_password_toggle exec page).
Proof.
  intros H. eapply preserved_ext; [apply verify_password_toggle_unfold|].
  now apply preserved_perform_all.
Qed.

Lemma preserved_on_failure P page e :
  (forall c, In c (handler_steps page e) -> preserved P (perform exec c)) ->
  preserved P (on_failure exec page e).
Proof.
  intros H. eapply preserved_ext; [apply on_failure_unfold|].
  now apply preserved_perform_all.
Qed.

(** A property of states kept by each call the driver can make is kept by
    the whole run. *)
Lemma preserved_main P :
  (forall c, main_performs c -> preserved P (perform exec c)) -> preserved P (main exec).
Proof.
  intros H. eapply preserved_ext; [apply main_unfold|].
  apply preserved_with; [apply H; performs_listed | apply H; performs_listed |].
  intros _. apply preserved_bind; [apply H; performs_listed|].
  intros _. apply preserved_bind; [apply H; performs_listed|].
  intros _. unfold guarded_run. apply preserved_try.
  - apply preserved_bind.
    + apply preserved_verify. intros c Hc. apply H. left.
      apply in_or_app. right. apply in_or_app. now left.
    + intros _. apply H. performs_listed.
  - intros e. apply preserved_on_failure. intros c Hc. apply H.
    destruct Hc as [<-|Hc]; [right; now exists e|].
    left. apply in_or_app. right. apply in_or_app. right. exact Hc.
  - apply H. performs_listed.
Qed.

(** The driver makes no call outside [main_performs]. *)
Lemma main_calls_listed (w : World) :
  Forall main_performs (calls (snd (run (main exec) w))).
Proof.
  unfold run.
  apply (preserved_main (fun s => Forall main_performs (calls s))); [|constructor].
  intros c Hc s Hs. unfold perform, calls in *.
  destruct (exec c (st_world s)) as [o w']. simpl.
  rewrite map_app. apply Forall_app. split; [exact Hs|]. simpl. now constructor.
Qed.

(** *** The shape of the driver's log *)

Lemma on_failure_log page e (s : @state World) :
  exists hevs,
    st_log (snd (on_failure exec page e s)) = st_log s ++ hevs /\
    straight_line (handler_steps page e) (fst (on_failure exec page e s)) hevs.
Proof. rewrite on_failure_unfold. apply perform_all_log. Qed.

Lemma caught_log page e (s : @state World) :
  let rs := if isinstance_Exception e then on_failure exec page e s else (Raises e, s) in
  exists hevs, st_log (snd rs) = st_log s ++ hevs /\ caught_by_handler page e (fst rs) hevs.
Proof.
  unfold caught_by_handler. destruct (isinstance_Exception e); simpl.
  - apply on_failure_log.
  - exists []. rewrite app_nil_r. auto.
Qed.

(** The [try] statement: after the procedure, the events [after_procedure]
    describes, then [browser.close()], whose exception, if any, replaces
    the pending outcome. *)
Lemma guarded_run_shape b page (s : @state World) :
  exists evs rm oc,
    st_log (snd (guarded_run exec b page s)) =
      st_log (snd (verify_password_toggle exec page s)) ++ evs ++ [(BrowserClose b, oc)] /\
    after_procedure page (fst (verify_password_toggle exec page s)) rm evs /\
    fst (guarded_run exec b page s) = match oc with None => rm | Some e => Raises e end.
Proof.
  unfold guarded_run, try_except_finally, bind, print, browser_close, perform.
  destruct (verify_password_toggle exec page s) as [[[]|e] s1]; cbn [fst snd].
  - destruct (exec (Print "Verification successful!") (st_world s1)) as [[e|] w1].
    + destruct (caught_log page e
                  (State w1 (st_log s1 ++ [(Print "Verification successful!", Some e)])))
        as (hevs & Hlog & Hc).
      cbn zeta in Hlog, Hc.
      destruct (if isinstance_Exception e then _ else _) as [rm s2]. cbn [fst snd] in *.
      destruct (exec (BrowserClose b) (st_world s2)) as [oc w3].
      exists ((Print "Verification successful!", Some e) :: hevs), rm, oc.
      destruct oc; cbn [st_log snd fst]; rewrite Hlog; cbn [st_log];
        rewrite <- !app_assoc; cbn [app];
        (split; [reflexivity|]; split; [right; eauto|reflexivity]).
    + cbn [st_world st_log].
      destruct (exec (BrowserClose b) w1) as [oc w3].
      exists [(Print "Verification successful!", None)], (Returns tt), oc.
      destruct oc; cbn [st_log snd fst]; rewrite <- !app_assoc; cbn [app];
        (split; [reflexivity|]; split; [left; auto|reflexivity]).
  - destruct (caught_log page e s1) as (hevs & Hlog & Hc).
    cbn zeta in Hlog, Hc.
    destruct (if isinstance_Exception e then _ else _) as [rm s2]. cbn [fst snd] in *.
    destruct (exec (BrowserClose b) (st_world s2)) as [oc w3].
    exists hevs, rm, oc.
    destruct oc; cbn [st_log snd fst]; rewrite Hlog, <- !app_assoc;
      (split; [reflexivity|]; split; [exact Hc|reflexivity]).
Qed.

Lemma straight_line_within steps r evs :
  straight_line steps r evs -> Forall (fun ev => In (fst ev) steps) evs.
Proof.
  destruct r as [[]|e]; simpl.
  - intros ->. apply List.Forall_forall. intros ev Hev.
    apply in_map_iff in Hev as (c & <- & Hc). exact Hc.
  - intros (n & c & Hn & ->). apply Forall_app. split.
    + apply List.Forall_forall. intros ev Hev.
      apply in_map_iff in Hev as (c' & <- & Hc'). simpl.
      apply list_elem_of_In. eapply subseteq_take. apply list_elem_of_In. exact Hc'.
    + constructor; [|constructor]. simpl.
      apply list_elem_of_In. eapply list_elem_of_lookup_2. exact Hn.
Qed.


(** What the driver has logged when it reaches its [try]. *)
Lemma acquire_log w b page (s0 : @state World) :
  acquire exec (start w) = (Returns (b, page), s0) ->
  b = the_browser /\ page = the_page /\
  st_log s0 = [returned SyncPlaywrightEnter; returned (ChromiumLaunch true);
               returned (NewPage the_browser)].
Proof.
  unfold acquire, start, sync_playwright_enter, launch, new_page, bind, ret, perform.
  cbn [st_world st_log].
  destruct (exec SyncPlaywrightEnter w) as [[e0|] w0]; cbn [st_world st_log]; [discriminate|].
  destruct (exec (ChromiumLaunch true) w0) as [[e1|] w1]; cbn [st_world st_log]; [discriminate|].
  destruct (exec (NewPage (chromium_launch true)) w1) as [[e2|] w2];
    cbn [st_world st_log]; [discriminate|].
  intros H. inversion H. auto.
Qed.

(** Once the page is acquired, the run is the [try] statement followed by
    the exit of the [with] block. *)
Lemma main_after_acquire w b page (s0 : @state World) :
  acquire exec (start w) = (Returns (b, page), s0) ->
  exists ox,
    st_log (snd (run (main exec) w)) =
      st_log (snd (guarded_run exec b page s0)) ++ [(SyncPlaywrightExit, ox)] /\
    fst (run (main exec) w) =
      match ox with None => fst (guarded_run exec b page s0) | Some e => Raises e end.
Proof.
  unfold run. rewrite main_unfold.
  unfold acquire, start, with_as, sync_playwright_enter, sync_playwright_exit, launch,
    new_page, bind, ret, perform, the_browser, the_page.
  cbn [st_world st_log].
  destruct (exec SyncPlaywrightEnter w) as [[e0|] w0]; cbn [st_world st_log]; [discriminate|].
  destruct (exec (ChromiumLaunch true) w0) as [[e1|] w1]; cbn [st_world st_log]; [discriminate|].
  destruct (exec (NewPage (chromium_launch true)) w1) as [[e2|] w2];
    cbn [st_world st_log]; [discriminate|].
  intros H. inversion H; subst. clear H.
  destruct (guarded_run exec _ _ _) as [r s2].
  destruct (exec SyncPlaywrightExit (st_world s2)) as [[ex|] w3]; cbn [fst snd st_log].
  - exists (Some ex). auto.
  - exists None. auto.
Qed.

Lemma procedure_log page (s : @state World) :
  exists evs,
    st_log (snd (verify_password_toggle exec page s)) = st_log s ++ evs /\
    straight_line (procedure_steps page) (fst (verify_password_toggle exec page s)) evs.
Proof. rewrite verify_password_toggle_unfold. apply perform_all_log. Qed.

Lemma run_procedure_within w page :
  Forall (fun ev => In (fst ev) (procedure_steps page))
         (st_log (snd (run (verify_password_toggle exec page) w))).
Proof.
  unfold run. destruct (procedure_log page (start w)) as (evs & -> & Hsl).
  cbn [start st_log app]. eapply straight_line_within. exact Hsl.
Qed.

(** ** The claims that hold in every environment *)



(** The four ways the [except] clause can go, written out. *)
Lemma handler_cases page e r hevs :
  straight_line (handler_steps page e) r hevs ->
  (exists e1, hevs = [(Print (failure_message e), Some e1)] /\ r = Raises e1) \/
  (exists e2, hevs = [(Print (failure_message e), None);
                      (Makedirs "/home/jules/verification" true, Some e2)] /\ r = Raises e2) \/
  (exists e3, hevs = [(Print (failure_message e), None);
                      (Makedirs "/home/jules/verification" true, None);
                      (Screenshot page "/home/jules/verification/failure.png" None, Some e3)]
              /\ r = Raises e3) \/
  (hevs = [(Print (failure_message e), None);
           (Makedirs "/home/jules/verification" true, None);
           (Screenshot page "/home/jules/verification/failure.png" None, None)]
   /\ r = Returns tt).
Proof.
  destruct r as [[]|e']; simpl.
  - intros ->. right. right. right. split; reflexivity.
  - intros (n & c & Hn & ->).
    destruct n as [|[|[|n]]]; simpl in Hn; inversion Hn; subst; simpl.
    + left. eauto.
    + right. left. eauto.
    + right. right. left. eauto.
Qed.



(** C5, as the code has it.  After the procedure the [try] statement logs
    [after] and then [browser.close()].  If the procedure raised an error
    (an exception derived from [Exception]) the handler calls [print] with
    "Verification failed: " followed by the error's text; if that returns it
    calls [os.makedirs]; if that returns it calls [page.screenshot] for the
    fixed failure path; the first of these to raise ends the handler.  If
    the procedure returned, the success line is printed instead and, when
    that print returns, nothing else.  At most one status print returns, and
    when the first status print returns it is the only one. *)
Theorem status_line_and_failure_capture_attempt b page (s : @state World) :
  let rp := verify_password_toggle exec page s in
  exists after oc,
    st_log (snd (guarded_run exec b page s)) =
      st_log (snd rp) ++ after ++ [(BrowserClose b, oc)] /\
    (forall e, fst rp = Raises e -> isinstance_Exception e = true ->
       (exists e1, after = [(Print (failure_message e), Some e1)]) \/
       (exists e2, after = [(Print (failure_message e), None);
                            (Makedirs "/home/jules/verification" true, Some e2)]) \/
       (exists o3, after = [(Print (failure_message e), None);
                            (Makedirs "/home/jules/verification" true, None);
                            (Screenshot page "/home/jules/verification/failure.png" None, o3)])) /\
    (fst rp = Returns tt ->
       exists o rest, after = (Print "Verification successful!", o) :: rest /\
                      (o = None -> rest = [])) /\
    (List.length (printed_lines after) <= 1)%nat /\
    (forall c rest, after = (c, None) :: rest -> printed_lines after = [(c, None)]).
Proof.
  cbn zeta.
  destruct (guarded_run_shape b page s) as (evs & rm & oc & Hg & Hafter & _).
  exists evs, oc. split; [exact Hg|].
  assert (Hcaught : forall e r hevs, caught_by_handler page e r hevs ->
            hevs = [] \/
            (exists e1, hevs = [(Print (failure_message e), Some e1)]) \/
            (exists e2, hevs = [(Print (failure_message e), None);
                                (Makedirs "/home/jules/verification" true, Some e2)]) \/
            (exists o3, hevs = [(Print (failure_message e), None);
                                (Makedirs "/home/jules/verification" true, None);
                                (Screenshot page "/home/jules/verification/failure.png" None, o3)])).
  { intros e r hevs H. unfold caught_by_handler in H.
    destruct (isinstance_Exception e); [|left; tauto].
    apply handler_cases in H.
    destruct H as [(? & -> & _)|[(? & -> & _)|[(? & -> & _)|(-> & _)]]]; eauto 6. }
  destruct (fst (verify_password_toggle exec page s)) as [[]|e]; simpl in Hafter.
  - split; [intros e He; discriminate He|].
    destruct Hafter as [[-> _]|(e & hevs & -> & Hc)].
    + split; [intros _; eauto|]. split; [simpl; lia|].
      intros c rest H. inversion H; subst. reflexivity.
    + split; [intros _; eexists _, _; split; [reflexivity|intros H; discriminate H]|].
      apply Hcaught in Hc.
      destruct Hc as [->|[(? & ->)|[(? & ->)|([?|] & ->)]]];
        (split; [simpl; lia | intros c rest H; discriminate H]).
  - split.
    + intros e' He' Hexc. inversion He'; subst e'.
      unfold caught_by_handler in Hafter. rewrite Hexc in Hafter.
      apply handler_cases in Hafter.
      destruct Hafter as [(? & -> & _)|[(? & -> & _)|[(? & -> & _)|(-> & _)]]]; eauto 6.
    + split; [intros H; discriminate H|].
      apply Hcaught in Hafter.
      destruct Hafter as [->|[(? & ->)|[(? & ->)|([?|] & ->)]]];
        (split; [simpl; lia | intros c rest H; inversion H; subst; reflexivity]).
Qed.

(** C6.  With browser and page acquired, suppose a step of the procedure
    raises [e].  Then the procedure's part of the log is its steps up to the
    one that raised [e], each earlier one returned and none after it; the
    run navigates exactly once; and the rest of the run is what the [except]
    clause does with [e], then [browser.close()] and the exit of the [with]
    block.  When [e] is an error (an exception derived from [Exception], as
    every failed expectation is) the handler's steps for [e] run once and the
    run prints exactly one line, the failure line: nothing is retried. *)
Theorem first_failure_ends_the_procedure_and_is_caught_once w b page (s0 s1 : @state World) e :
  acquire exec (start w) = (Returns (b, page), s0) ->
  verify_password_toggle exec page s0 = (Raises e, s1) ->
  exists n c hevs rh oc ox,
    procedure_steps page !! n = Some c /\
    st_log s1 = st_log s0 ++ map returned (take n (procedure_steps page)) ++ [(c, Some e)] /\
    st_log (snd (run (main exec) w)) =
      st_log s1 ++ hevs ++ [(BrowserClose b, oc); (SyncPlaywrightExit, ox)] /\
    caught_by_handler page e rh hevs /\
    List.filter is_goto (calls (snd (run (main exec) w))) =
      [Goto page "http://localhost:5173/register"] /\
    (isinstance_Exception e = true ->
     straight_line (handler_steps page e) rh hevs /\
     List.filter is_print (calls (snd (run (main exec) w))) = [Print (failure_message e)]).
Proof.
  intros Hacq Hv.
  destruct (main_after_acquire _ _ _ _ Hacq) as (ox & Hlog & _).
  destruct (acquire_log _ _ _ _ Hacq) as (-> & -> & Hs0).
  destruct (guarded_run_shape the_browser the_page s0) as (hevs & rm & oc & Hg & Hafter & _).
  destruct (procedure_log the_page s0) as (pevs & Hp & Hsl).
  rewrite Hv in *. cbn [fst snd] in *. simpl in Hafter.
  destruct Hsl as (n & c & Hn & ->).
  exists n, c, hevs, rm, oc, ox.
  split; [exact Hn|]. split; [exact Hp|].
  assert (Hfull : st_log (snd (run (main exec) w)) =
                  st_log s1 ++ hevs ++ [(BrowserClose the_browser, oc); (SyncPlaywrightExit, ox)]).
  { rewrite Hlog, Hg, <- !app_assoc. reflexivity. }
  split; [exact Hfull|]. split; [exact Hafter|].
  unfold calls. rewrite Hfull, Hp, Hs0.
  assert (Hlt : (n < 11)%nat) by (apply lookup_lt_Some in Hn; exact Hn).
  unfold caught_by_handler in Hafter.
  destruct (isinstance_Exception e).
  - pose proof (handler_cases _ _ _ _ Hafter) as Hcases.
    do 11 (destruct n as [|n]; [inversion Hn; subst c;
      destruct Hcases as [(? & -> & _)|[(? & -> & _)|[(? & -> & _)|(-> & _)]]];
      (split; [reflexivity|]); intros _; (split; [exact Hafter|reflexivity])|]).
    exfalso. lia.
  - destruct Hafter as [-> _].
    do 11 (destruct n as [|n]; [inversion Hn; subst c;
      split; [reflexivity | intros H; discriminate H]|]).
    exfalso. lia.
Qed.

End ScriptFacts.

(** ** Label lookups *)

Lemma matches_iff l (el : Env.element) :
  Env.matches l el = true <->
  exists label, In label (Env.el_labels el) /\
                Env.label_matches (loc_label l) (loc_exact l) label = true.
Proof. unfold Env.matches. apply existsb_exists. Qed.

(** C8.  The locator the procedure fills is the one built by
    [get_by_label("Password", exact=True)].  It matches an element exactly
    when one of the element's accessible labels is the string "Password";
    any other label, so any label that only contains "Password" or
    "password", is not matched.  On the registration page only the field
    (element 0) is matched, not the toggle; a non-exact lookup of the same
    text would match the toggle's label too. *)
Theorem password_lookup_is_exact {World} (exec : call -> World -> option exn * World)
    (w : World) page l v o :
  In (Fill l v, o) (st_log (snd (run (verify_password_toggle exec page) w))) ->
  l = password_locator page /\
  (forall el, Env.matches l el = true <-> In "Password" (Env.el_labels el)) /\
  (forall label, label <> "Password" ->
     Env.label_matches (loc_label l) (loc_exact l) label = false) /\
  Env.label_matches (loc_label l) (loc_exact l) "Show password" = false /\
  Env.label_matches (loc_label l) (loc_exact l) "Hide password" = false /\
  Env.resolve l Env.registration_dom = [0%nat] /\
  Env.label_matches (loc_label l) None "Show password" = true.
Proof.
  intros Hin.
  assert (Hl : l = password_locator page).
  { pose proof (run_procedure_within exec w page) as Hall.
    rewrite List.Forall_forall in Hall. specialize (Hall _ Hin). simpl in Hall.
    intuition congruence. }
  subst l. split; [reflexivity|]. split; [|split].
  - intros el. rewrite matches_iff. simpl. split.
    + intros (label & Hlab & Heq). apply String.eqb_eq in Heq. now subst.
    + intros H. exists "Password". split; [exact H | reflexivity].
  - intros label Hne. simpl. apply String.eqb_neq. exact Hne.
  - repeat split; reflexivity.
Qed.

(** C9.  The locator the procedure clicks is the one built by
    [get_by_label("Show password")], without [exact].  It matches every
    element one of whose labels contains "show password" once lower-cased.
    On a page that also has an element labelled "Show password
    requirements", it matches that element (position 2) as well as the
    toggle (position 1); the exact variant of the lookup matches the toggle
    alone. *)
Theorem toggle_lookup_is_not_exact {World} (exec : call -> World -> option exn * World)
    (w : World) page l o :
  In (Click l, o) (st_log (snd (run (verify_password_toggle exec page) w))) ->
  l = toggle_locator page /\
  loc_exact l = None /\
  (forall el label, In label (Env.el_labels el) ->
     includes "show password" (to_lower label) = true -> Env.matches l el = true) /\
  (exists el label,
     Env.crowded_dom !! 2%nat = Some el /\ In label (Env.el_labels el) /\
     label <> "Show password" /\ includes "Show password" label = true /\
     Env.matches l el = true) /\
  Env.resolve l Env.crowded_dom = [1%nat; 2%nat] /\
  Env.resolve {| loc_page := page; loc_label := "Show password"; loc_exact := Some true |}
              Env.crowded_dom = [1%nat].
Proof.
  intros Hin.
  assert (Hl : l = toggle_locator page).
  { pose proof (run_procedure_within exec w page) as Hall.
    rewrite List.Forall_forall in Hall. specialize (Hall _ Hin). simpl in Hall.
    intuition congruence. }
  subst l. split; [reflexivity|]. split; [reflexivity|]. split; [|split].
  - intros el label Hlab Hinc. apply matches_iff. exists label. split; [exact Hlab|].
    exact Hinc.
  - exists (Env.Element ["Show password requirements"] [] true ""),
           "Show password requirements".
    repeat split; try reflexivity.
    + now left.
    + intros H. discriminate H.
  - split; reflexivity.
Qed.

(** ** The file system of [Env] *)

Lemma is_dir_true fs p : Env.is_dir fs p = true <-> p ∈ Env.fs_dirs fs.
Proof. unfold Env.is_dir. apply bool_decide_eq_true. Qed.

(** [os.makedirs(p, exist_ok=True)] on an existing directory returns and
    changes nothing. *)
Lemma fs_makedirs_existing p fs :
  Env.is_dir fs p = true -> Env.fs_makedirs p true fs = (None, fs).
Proof. intros H. unfold Env.fs_makedirs. now rewrite H. Qed.

Lemma fs_makedirs_dirs_mono p ok fs q :
  q ∈ Env.fs_dirs fs -> q ∈ Env.fs_dirs (snd (Env.fs_makedirs p ok fs)).
Proof.
  intros H. unfold Env.fs_makedirs.
  repeat match goal with |- context [if ?b then _ else _] => destruct b end;
    simpl; try exact H; set_solver.
Qed.

Lemma fs_makedirs_returns_dir p ok fs fs' :
  Env.fs_makedirs p ok fs = (None, fs') -> Env.is_dir fs' p = true.
Proof.
  unfold Env.fs_makedirs.
  destruct (Env.is_dir fs p) eqn:Hd.
  - destruct ok; intros H; inversion H; subst. exact Hd.
  - repeat match goal with |- context [if ?b then _ else _] => destruct b end;
      intros H; inversion H; subst.
    apply is_dir_true. simpl. set_solver.
Qed.

Lemma fs_write_dirs_mono mk p img fs q :
  q ∈ Env.fs_dirs fs -> q ∈ Env.fs_dirs (snd (Env.fs_write mk p img fs)).
Proof.
  intros H. unfold Env.fs_write.
  destruct (Env.is_dir fs p); [exact H|].
  assert (H1 : q ∈ Env.fs_dirs
            (snd (if mk then Env.fs_makedirs (dirname p) true fs else (None, fs)))).
  { destruct mk; [now apply fs_makedirs_dirs_mono | exact H]. }
  destruct (if mk then _ else _) as [[e|] fs1]; simpl in *; [exact H1|].
  repeat match goal with |- context [if ?b then _ else _] => destruct b end;
    simpl; exact H1.
Qed.

Lemma on_single_fs l none w k :
  (forall i e dom, Env.w_fs (snd (k i e dom)) = Env.w_fs w) ->
  Env.w_fs (snd (Env.on_single l none w k)) = Env.w_fs w.
Proof.
  intros Hk. unfold Env.on_single.
  destruct (Env.w_page w) as [dom|]; [|reflexivity].
  destruct (Env.resolve l dom) as [|i [|]]; try reflexivity.
  destruct (dom !! i); [apply Hk | reflexivity].
Qed.

(** No call removes a directory. *)
Lemma exec_dirs_mono c w q :
  q ∈ Env.fs_dirs (Env.w_fs w) -> q ∈ Env.fs_dirs (Env.w_fs (snd (Env.exec c w))).
Proof.
  intros H. destruct c; simpl;
    try (rewrite on_single_fs;
         [exact H | intros; repeat match goal with
                            | |- context [if ?b then _ else _] => destruct b
                            | |- context [match ?o with Some _ => _ | None => _ end] => destruct o
                            end; reflexivity]);
    try exact H.
  - destruct (Env.w_chromium_installed w); exact H.
  - destruct (Env.w_browser_open w); exact H.
  - destruct (Env.w_page w); [|exact H]. destruct (Env.w_server w url); exact H.
  - pose proof (fs_makedirs_dirs_mono path exist_ok (Env.w_fs w) q H) as H1.
    destruct (Env.fs_makedirs path exist_ok (Env.w_fs w)). exact H1.
  - destruct (Env.w_page w) as [dom|]; [|exact H].
    pose proof (fs_write_dirs_mono (Env.w_screenshot_makes_dirs w) path
                  (Env.Image (captures_full_page full_page) dom) (Env.w_fs w) q H) as H1.
    destruct (Env.fs_write _ _ _ _). exact H1.
  - destruct (Env.w_stdout_open w); exact H.
Qed.

(** Both [os.makedirs] calls of the script name the output directory and
    pass [exist_ok=True]. *)
Lemma main_makedirs_args {World} (exec : call -> World -> option exn * World) (w : World)
    p ok o :
  In (Makedirs p ok, o) (st_log (snd (run (main exec) w))) ->
  p = "/home/jules/verification" /\ ok = true.
Proof.
  intros Hin.
  pose proof (main_calls_listed exec w) as Hall.
  rewrite List.Forall_forall in Hall.
  specialize (Hall (Makedirs p ok)).
  destruct Hall as [Hl|(e & He)].
  - unfold calls. change (Makedirs p ok) with (fst (Makedirs p ok, o)). now apply in_map.
  - simpl in Hl. intuition (try discriminate; try congruence);
      match goal with H : Makedirs _ _ = Makedirs _ _ |- _ => inversion H; auto end.
  - discriminate He.
Qed.

(** While the output directory exists, every [makedirs] on it returns. *)
Lemma existing_dir_kept c :
  preserved
    (fun s => "/home/jules/verification" ∈ Env.fs_dirs (Env.w_fs (st_world s)) /\
              Forall makedirs_returned (st_log s))
    (perform Env.exec c).
Proof.
  intros s [Hd Hlog]. unfold perform.
  pose proof (exec_dirs_mono c (st_world s) _ Hd) as Hd'.
  destruct (Env.exec c (st_world s)) as [o w'] eqn:E. cbn [fst snd st_world st_log] in *.
  split; [exact Hd'|]. apply Forall_app. split; [exact Hlog|].
  constructor; [|constructor]. intros Hc. cbn [fst snd] in *. subst c.
  simpl in E. rewrite fs_makedirs_existing in E by now apply is_dir_true.
  now inversion E.
Qed.

(** Once a [makedirs] on the output directory has returned, the directory
    exists for the rest of the run. *)
Lemma created_dir_kept c :
  preserved
    (fun s => In (Makedirs "/home/jules/verification" true, None) (st_log s) ->
              "/home/jules/verification" ∈ Env.fs_dirs (Env.w_fs (st_world s)))
    (perform Env.exec c).
Proof.
  intros s H. unfold perform.
  destruct (Env.exec c (st_world s)) as [o w'] eqn:E. cbn [fst snd st_world st_log].
  intros Hin. apply in_app_or in Hin as [Hin|[Hin|[]]].
  - pose proof (exec_dirs_mono c (st_world s) _ (H Hin)) as Hd. now rewrite E in Hd.
  - inversion Hin; subst. simpl in E.
    destruct (Env.fs_makedirs _ true (Env.w_fs (st_world s))) as [o fs'] eqn:Em.
    inversion E; subst. simpl. apply is_dir_true. eapply fs_makedirs_returns_dir. exact Em.
Qed.

(** C7.  In every environment each [os.makedirs] call of the script, on the
    success path and in the failure handler, names the output directory and
    passes [exist_ok=True].  In [Env] such a call on an existing directory
    returns and changes nothing; so in a run started with the directory in
    place every [makedirs] returns, and after a run in which a [makedirs]
    returned every [makedirs] of a second run, started where the first
    ended, returns. *)
Theorem output_directory_creation_is_idempotent (w : Env.world) :
  let s1 := snd (run (main Env.exec) w) in
  let s2 := snd (run (main Env.exec) (st_world s1)) in
  (forall World (exec : call -> World -> option exn * World) (w0 : World) p ok o,
     In (Makedirs p ok, o) (st_log (snd (run (main exec) w0))) ->
     p = "/home/jules/verification" /\ ok = true) /\
  (forall fs, Env.is_dir fs "/home/jules/verification" = true ->
     Env.fs_makedirs "/home/jules/verification" true fs = (None, fs)) /\
  (Env.is_dir (Env.w_fs w) "/home/jules/verification" = true ->
     forall o, In (Makedirs "/home/jules/verification" true, o) (st_log s1) -> o = None) /\
  (In (Makedirs "/home/jules/verification" true, None) (st_log s1) ->
     forall o, In (Makedirs "/home/jules/verification" true, o) (st_log s2) -> o = None).
Proof.
  cbn zeta.
  assert (Hrun : forall w0 : Env.world,
            Env.is_dir (Env.w_fs w0) "/home/jules/verification" = true ->
            forall o, In (Makedirs "/home/jules/verification" true, o)
                         (st_log (snd (run (main Env.exec) w0))) -> o = None).
  { intros w0 Hd o Hin.
    destruct (preserved_main Env.exec _ (fun c _ => existing_dir_kept c) (start w0))
      as [_ Hall].
    - split; [now apply is_dir_true | constructor].
    - rewrite List.Forall_forall in Hall. exact (Hall _ Hin eq_refl). }
  split; [|split; [|split]].
  - intros World exec w0 p ok o Hin. eapply main_makedirs_args; exact Hin.
  - intros fs. apply fs_makedirs_existing.
  - apply Hrun.
  - intros Hin. apply Hrun. apply is_dir_true.
    apply (preserved_main Env.exec _ (fun c _ => created_dir_kept c) (start w));
      [intros []|exact Hin].
Qed.

(** ** The failure handler in [Env] *)

(** If a sequence logged at most [k] events, only its first [k] calls ran. *)
Lemma perform_all_bounded {World} (exec : call -> World -> option exn * World)
    (P : @state World -> Prop) (cs : list call) : forall (k : nat) (s : @state World),
  (forall c, In c (take k cs) -> preserved P (perform exec c)) ->
  P s ->
  (List.length (st_log (snd (perform_all exec cs s))) <= List.length (st_log s) + k)%nat ->
  P (snd (perform_all exec cs s)).
Proof.
  induction cs as [|c cs IH]; intros k s Hk HP Hlen; [exact HP|].
  simpl in *. unfold bind in *.
  destruct k as [|k].
  - exfalso.
    destruct (perform exec c s) as [[[]|e] s'] eqn:Ep; unfold perform in Ep;
      destruct (exec c (st_world s)) as [o w']; inversion Ep; subst; clear Ep.
    + destruct (perform_all_log exec cs (State w' (st_log s ++ [(c, o)]))) as (evs & Hl & _).
      rewrite Hl in Hlen. cbn [st_log] in Hlen. rewrite !length_app in Hlen. simpl in Hlen. lia.
    + cbn [snd st_log] in Hlen. rewrite length_app in Hlen. simpl in Hlen. lia.
  - assert (HP' : P (snd (perform exec c s))) by (apply Hk; [now left | exact HP]).
    assert (Hl1 : List.length (st_log (snd (perform exec c s))) = S (List.length (st_log s))).
    { unfold perform. destruct (exec c (st_world s)). cbn [snd st_log].
      rewrite length_app. simpl. lia. }
    destruct (perform exec c s) as [[[]|e] s'].
    + cbn [snd] in *. apply (IH k); [|exact HP'|lia].
      intros c' Hc'. apply Hk. now right.
    + exact HP'.
Qed.

(** Every exception [Env] raises derives from [Exception]. *)
Lemma env_raises_Exception c w e w' :
  Env.exec c w = (Some e, w') -> isinstance_Exception e = true.
Proof.
  destruct c; simpl; unfold Env.on_single, Env.fs_makedirs, Env.fs_write, Env.fs_makedirs;
    repeat match goal with
    | |- context [if ?b then _ else _] => destruct b
    | |- context [match ?o with Some _ => _ | None => _ end] => destruct o
    | |- context [match ?l with [] => _ | _ :: _ => _ end] => destruct l
    end;
    intros H; inversion H; reflexivity.
Qed.

Lemma browser_steps_untouched fs mk page c :
  In c (take 9 (procedure_steps page)) -> preserved (untouched fs mk) (perform Env.exec c).
Proof.
  intros Hc s (Hp & Hf & Ho & Hm). unfold untouched, perform.
  destruct s as [w l]. cbn [st_world st_log] in *.
  destruct (Env.w_page w) as [dom|] eqn:Epage; [|congruence].
  simpl in Hc.
  repeat (destruct Hc as [<-|Hc]; [
    simpl; unfold Env.on_single; rewrite ?Epage;
    repeat match goal with
    | |- context [if ?b then _ else _] => destruct b
    | |- context [match ?o with Some _ => _ | None => _ end] => destruct o
    | |- context [match ?l with [] => _ | _ :: _ => _ end] => destruct l
    end; simpl; rewrite ?Epage; auto; repeat split; auto; discriminate |]).
  contradiction.
Qed.

Lemma fs_makedirs_creates fs :
  Env.fs_writable fs = true ->
  Env.is_file fs "/home/jules/verification" = false ->
  existsb (Env.is_file fs) (ancestors "/home/jules/verification") = false ->
  Env.is_dir fs "/home/jules/verification/failure.png" = false ->
  exists fs1,
    Env.fs_makedirs "/home/jules/verification" true fs = (None, fs1) /\
    Env.is_dir fs1 "/home/jules/verification" = true /\
    Env.fs_writable fs1 = true /\
    Env.is_dir fs1 "/home/jules/verification/failure.png" = false.
Proof.
  intros Hw Hf Ha Hd. unfold Env.fs_makedirs.
  destruct (Env.is_dir fs "/home/jules/verification") eqn:E.
  - exists fs. auto.
  - rewrite Hf, Ha, Hw. eexists. split; [reflexivity|]. split; [|split; [reflexivity|]].
    + apply is_dir_true. simpl. set_solver.
    + apply bool_decide_eq_false. apply bool_decide_eq_false in Hd.
      cbn [Env.fs_dirs]. intros Hin.
      change (ancestors "/home/jules/verification") with ["/home"; "/home/jules"] in Hin.
      rewrite !elem_of_union, elem_of_singleton, elem_of_list_to_set in Hin.
      destruct Hin as [[Hin|Hin]|Hin]; [exact (Hd Hin) | discriminate Hin |].
      apply list_elem_of_In in Hin. simpl in Hin.
      destruct Hin as [Hin|[Hin|[]]]; discriminate Hin.
Qed.

Lemma fs_write_into_existing_dir mk img fs :
  Env.is_dir fs "/home/jules/verification" = true ->
  Env.fs_writable fs = true ->
  Env.is_dir fs "/home/jules/verification/failure.png" = false ->
  exists fs2,
    Env.fs_write mk "/home/jules/verification/failure.png" img fs = (None, fs2) /\
    Env.is_file fs2 "/home/jules/verification/failure.png" = true.
Proof.
  intros Hd Hw Hn. unfold Env.fs_write. rewrite Hn.
  change (dirname "/home/jules/verification/failure.png") with "/home/jules/verification".
  assert (E : (if mk then Env.fs_makedirs "/home/jules/verification" true fs else (None, fs))
              = (None, fs)).
  { destruct mk; [now apply fs_makedirs_existing | reflexivity]. }
  rewrite E, Hd, Hw. simpl. eexists. split; [reflexivity|].
  unfold Env.is_file. simpl. now rewrite lookup_insert_eq.
Qed.

Lemma on_failure_env page e w1 l1 dom fs1 fs2 :
  Env.w_stdout_open w1 = true ->
  Env.fs_makedirs "/home/jules/verification" true (Env.w_fs w1) = (None, fs1) ->
  Env.w_page w1 = Some dom ->
  Env.fs_write (Env.w_screenshot_makes_dirs w1) "/home/jules/verification/failure.png"
               (Env.Image false dom) fs1 = (None, fs2) ->
  on_failure Env.exec page e (State w1 l1) =
  (Returns tt,
   State (Env.set_fs fs2 (Env.set_fs fs1 (Env.add_stdout (failure_message e) w1)))
         (l1 ++ [ (Print (failure_message e), None);
                  (Makedirs "/home/jules/verification" true, None);
                  (Screenshot page "/home/jules/verification/failure.png" None, None) ])).
Proof.
  intros Ho Emk Epage Ewr.
  unfold on_failure, print, makedirs, screenshot, bind, perform.
  cbn [st_world st_log].
  simpl Env.exec at 1. rewrite Ho. cbn [st_world st_log].
  simpl Env.exec at 1. cbn [Env.w_fs Env.add_stdout]. rewrite Emk. cbn [st_world st_log].
  simpl Env.exec at 1.
  cbn [Env.w_page Env.set_fs Env.add_stdout Env.w_fs Env.w_screenshot_makes_dirs].
  rewrite Epage. cbn [captures_full_page]. rewrite Ewr.
  rewrite <- !app_assoc. reflexivity.
Qed.

(** C10.  In [Env], let the procedure raise before its own [os.makedirs]
    (no [makedirs] among the events it logged), on an open page, with
    standard output open and a file system where the user may write, no
    regular file is in the way of the output directory and the failure path
    is not a directory.  Then the procedure left the file system as it was,
    and the handler prints the failure line, calls [os.makedirs] on the
    output directory, and only then takes the screenshot: all three return
    and the file [/home/jules/verification/failure.png] exists afterwards,
    whether or not the directory existed and whether or not the screenshot
    writer creates missing directories itself. *)
Theorem failure_screenshot_written_after_early_failure b page
    (s s1 : @state Env.world) e evs :
  verify_password_toggle Env.exec page s = (Raises e, s1) ->
  st_log s1 = st_log s ++ evs ->
  Forall (fun ev => is_makedirs (fst ev) = false) evs ->
  Env.w_page (st_world s) <> None ->
  Env.w_stdout_open (st_world s) = true ->
  Env.fs_writable (Env.w_fs (st_world s)) = true ->
  Env.is_file (Env.w_fs (st_world s)) "/home/jules/verification" = false ->
  existsb (Env.is_file (Env.w_fs (st_world s))) (ancestors "/home/jules/verification") = false ->
  Env.is_dir (Env.w_fs (st_world s)) "/home/jules/verification/failure.png" = false ->
  Env.w_fs (st_world s1) = Env.w_fs (st_world s) /\
  (exists oc,
     st_log (snd (guarded_run Env.exec b page s)) =
       st_log s1 ++
       [ (Print (failure_message e), None);
         (Makedirs "/home/jules/verification" true, None);
         (Screenshot page "/home/jules/verification/failure.png" None, None);
         (BrowserClose b, oc) ]) /\
  Env.is_file (Env.w_fs (st_world (snd (guarded_run Env.exec b page s))))
              "/home/jules/verification/failure.png" = true.
Proof.
  intros Hv Hlog Hnomk Hpage Hout Hw Hnf Hanc Hnd.
  (* the exception is an Exception, and at most nine steps ran *)
  destruct (procedure_log Env.exec page s) as (evs' & Hlog' & Hsl).
  rewrite Hv in Hlog', Hsl. cbn [fst snd] in *.
  assert (evs' = evs) by (rewrite Hlog in Hlog'; now apply app_inv_head in Hlog').
  subst evs'. destruct Hsl as (n & c & Hn & Hevs).
  assert (Hn9 : (n < 9)%nat).
  { subst evs. apply Forall_app in Hnomk as [Hpre Hlast].
    assert (Hlt : (n < 11)%nat) by (apply lookup_lt_Some in Hn; exact Hn).
    destruct (decide (n < 9)%nat) as [|Hge]; [assumption|exfalso].
    assert (Hc : n = 9%nat \/ n = 10%nat) by lia. destruct Hc as [-> | ->].
    - inversion Hn; subst c. inversion Hlast as [|? ? Hbad _]. discriminate Hbad.
    - rewrite List.Forall_forall in Hpre.
      specialize (Hpre (returned (Makedirs "/home/jules/verification" true))).
      discriminate Hpre. simpl. tauto. }
  assert (Hexc : isinstance_Exception e = true).
  { clear - Hv.
    assert (forall cs (t t1 : @state Env.world),
              perform_all Env.exec cs t = (Raises e, t1) -> isinstance_Exception e = true)
      as Hall.
    { induction cs as [|c cs IH]; intros t t1 H; simpl in H; [discriminate H|].
      unfold bind, perform in H.
      destruct (Env.exec c (st_world t)) as [[e'|] w'] eqn:E.
      - inversion H; subst. eapply env_raises_Exception. exact E.
      - eapply IH. exact H. }
    rewrite verify_password_toggle_unfold in Hv. eapply Hall. exact Hv. }
  assert (Hun : untouched (Env.w_fs (st_world s)) (Env.w_screenshot_makes_dirs (st_world s)) s1).
  { pose proof (perform_all_bounded Env.exec
                  (untouched (Env.w_fs (st_world s)) (Env.w_screenshot_makes_dirs (st_world s)))
                  (procedure_steps page) 9 s) as Hb.
    rewrite <- verify_password_toggle_unfold, Hv in Hb. cbn [snd] in Hb.
    apply Hb.
    - intros c' Hc'. now apply (browser_steps_untouched _ _ page).
    - repeat split; auto.
    - rewrite Hlog, Hevs, !length_app, length_map, length_take. simpl. lia. }
  destruct Hun as (Hp1 & Hf1 & Ho1 & Hm1).
  split; [exact Hf1|].
  (* the handler *)
  destruct s1 as [w1 l1]. cbn [st_world st_log] in *.
  destruct (fs_makedirs_creates (Env.w_fs w1)) as (fs1 & Emk & Hd1 & Hw1 & Hn1);
    try (rewrite Hf1; assumption).
  destruct (Env.w_page w1) as [dom|] eqn:Epage; [|congruence].
  destruct (fs_write_into_existing_dir (Env.w_screenshot_makes_dirs w1)
              (Env.Image false dom) fs1 Hd1 Hw1 Hn1) as (fs2 & Ewr & Hfile).
  unfold guarded_run, try_except_finally, bind. rewrite Hv, Hexc.
  rewrite (on_failure_env page e w1 l1 dom fs1 fs2 Ho1 Emk Epage Ewr).
  unfold browser_close, perform. cbn [st_world st_log Env.exec fst snd].
  split.
  - eexists. rewrite <- !app_assoc. reflexivity.
  - exact Hfile.
Qed.

(** ** Concrete runs *)



(** C5 as stated fails.  Where the user may not create [/home/jules], the
    procedure raises [PermissionError] (an [Exception]); the driver catches
    it and prints the failure line; but the handler's [os.makedirs] raises
    before [page.screenshot] is reached: the log holds no screenshot call
    for the failure path and no file exists there. *)
Lemma no_failure_screenshot_when_home_is_unwritable :
  fst (verify_password_toggle Env.exec the_page (at_try Env.unwritable_world)) =
    Raises (Exn PermissionError "/home/jules/verification") /\
  isinstance_Exception (Exn PermissionError "/home/jules/verification") = true /\
  Env.w_stdout (st_world (snd (run (main Env.exec) Env.unwritable_world))) =
    ["Verification failed: /home/jules/verification"] /\
  (forall pg full_page o,
     ~ In (Screenshot pg "/home/jules/verification/failure.png" full_page, o)
          (st_log (snd (run (main Env.exec) Env.unwritable_world)))) /\
  Env.is_file (Env.w_fs (st_world (snd (run (main Env.exec) Env.unwritable_world))))
              "/home/jules/verification/failure.png" = false.
Proof.
  split; [vm_compute; reflexivity|]. split; [reflexivity|].
  split; [vm_compute; reflexivity|]. split; [|vm_compute; reflexivity].
  intros pg full_page o Hin. vm_compute in Hin.
  repeat (destruct Hin as [Hin|Hin]; [discriminate Hin|]). exact Hin.
Qed.

(** A [KeyboardInterrupt] is not an [Exception]: the [except] clause lets
    it pass, nothing is printed, [browser.close()] still runs. *)
Example keyboard_interrupt_passes_the_handler :
  fst (run (main interrupted_at_goto) tt) = Raises (Exn KeyboardInterrupt "") /\
  calls (snd (run (main interrupted_at_goto) tt)) =
    [ SyncPlaywrightEnter; ChromiumLaunch true; NewPage the_browser;
      Goto the_page "http://localhost:5173/register";
      BrowserClose the_browser; SyncPlaywrightExit ].
Proof. split; reflexivity. Qed.




(** With the application down, navigation raises: the first step ends the
    procedure, the handler runs once, the browser is closed. *)
Lemma navigation_failure_is_caught_once :
  acquire Env.exec (start Env.server_down_world) =
    (Returns (the_browser, the_page), at_try Env.server_down_world) /\
  verify_password_toggle Env.exec the_page (at_try Env.server_down_world) =
    (Raises connection_refused,
     snd (verify_password_toggle Env.exec the_page (at_try Env.server_down_world))) /\
  exists n c hevs rh oc ox,
    procedure_steps the_page !! n = Some c /\
    st_log (snd (verify_password_toggle Env.exec the_page (at_try Env.server_down_world))) =
      st_log (at_try Env.server_down_world) ++
      map returned (take n (procedure_steps the_page)) ++ [(c, Some connection_refused)] /\
    st_log (snd (run (main Env.exec) Env.server_down_world)) =
      st_log (snd (verify_password_toggle Env.exec the_page (at_try Env.server_down_world)))
      ++ hevs ++ [(BrowserClose the_browser, oc); (SyncPlaywrightExit, ox)] /\
    caught_by_handler the_page connection_refused rh hevs /\
    List.filter is_goto (calls (snd (run (main Env.exec) Env.server_down_world))) =
      [Goto the_page "http://localhost:5173/register"] /\
    (isinstance_Exception connection_refused = true ->
     straight_line (handler_steps the_page connection_refused) rh hevs /\
     List.filter is_print (calls (snd (run (main Env.exec) Env.server_down_world))) =
       [Print (failure_message connection_refused)]).
Proof.
  split; [vm_compute; reflexivity|]. split; [vm_compute; reflexivity|].
  apply (first_failure_ends_the_procedure_and_is_caught_once Env.exec Env.server_down_world
           the_browser the_page (at_try Env.server_down_world)).
  - vm_compute; reflexivity.
  - vm_compute; reflexivity.
Defined.

(** On the working page the field is filled through the exact locator. *)
Lemma password_lookup_on_registration_page :
  In (Fill (password_locator the_page) "MySecretPass123", None)
     (st_log (snd (run (verify_password_toggle Env.exec the_page)
                       (st_world (at_try Env.good_world))))) /\
  Env.resolve (password_locator the_page) Env.registration_dom = [0%nat].
Proof.
  assert (H : In (Fill (password_locator the_page) "MySecretPass123", None)
                 (st_log (snd (run (verify_password_toggle Env.exec the_page)
                                   (st_world (at_try Env.good_world)))))).
  { vm_compute. tauto. }
  split; [exact H|].
  exact (proj1 (proj2 (proj2 (proj2 (proj2 (proj2
    (password_lookup_is_exact Env.exec _ the_page _ _ _ H))))))).
Defined.

(** On the working page the toggle is clicked through the non-exact locator. *)
Lemma toggle_lookup_on_registration_page :
  In (Click (toggle_locator the_page), None)
     (st_log (snd (run (verify_password_toggle Env.exec the_page)
                       (st_world (at_try Env.good_world))))) /\
  Env.resolve (toggle_locator the_page) Env.crowded_dom = [1%nat; 2%nat].
Proof.
  assert (H : In (Click (toggle_locator the_page), None)
                 (st_log (snd (run (verify_password_toggle Env.exec the_page)
                                   (st_world (at_try Env.good_world)))))).
  { vm_compute. tauto. }
  split; [exact H|].
  exact (proj1 (proj2 (proj2 (proj2 (proj2
    (toggle_lookup_is_not_exact Env.exec _ the_page _ _ H)))))).
Defined.

(** With the application down the procedure fails at navigation, before any
    directory exists, and the failure screenshot is written all the same. *)
Lemma failure_screenshot_when_server_is_down :
  Env.is_dir (Env.w_fs (st_world (at_try Env.server_down_world)))
             "/home/jules/verification" = false /\
  Env.w_fs (st_world (snd (verify_password_toggle Env.exec the_page
                             (at_try Env.server_down_world)))) =
    Env.w_fs (st_world (at_try Env.server_down_world)) /\
  (exists oc,
     st_log (snd (guarded_run Env.exec the_browser the_page (at_try Env.server_down_world))) =
       st_log (snd (verify_password_toggle Env.exec the_page (at_try Env.server_down_world)))
       ++ [ (Print (failure_message connection_refused), None);
            (Makedirs "/home/jules/verification" true, None);
            (Screenshot the_page "/home/jules/verification/failure.png" None, None);
            (BrowserClose the_browser, oc) ]) /\
  Env.is_file
    (Env.w_fs (st_world (snd (guarded_run Env.exec the_browser the_page
                                (at_try Env.server_down_world)))))
    "/home/jules/verification/failure.png" = true.
Proof.
  split; [vm_compute; reflexivity|].
  apply (failure_screenshot_written_after_early_failure the_browser the_page
           (at_try Env.server_down_world)
           (snd (verify_password_toggle Env.exec the_page (at_try Env.server_down_world)))
           connection_refused
           [(Goto the_page "http://localhost:5173/register", Some connection_refused)]).
  - vm_compute; reflexivity.
  - vm_compute; reflexivity.
  - repeat constructor.
  - vm_compute. discriminate.
  - vm_compute; reflexivity.
  - vm_compute; reflexivity.
  - vm_compute; reflexivity.
  - vm_compute; reflexivity.
  - vm_compute; reflexivity.
Defined.

(** * Further properties of the driver *)

(** ** Every path through the driver, for every environment *)

Section DriverPaths.

Context {World : Type}.
Variable exec : call -> World -> option exn * World.

(** When the driver does not reach its [try]: either [sync_playwright()]
    itself raised and nothing else ran, or [launch] or [new_page] raised and
    only the exit of the [with] block follows. *)
Lemma main_when_acquire_raises w e (s0 : @state World) :
  acquire exec (start w) = (Raises e, s0) ->
  (st_log s0 = [(SyncPlaywrightEnter, Some e)] /\
   run (main exec) w = (Raises e, s0)) \/
  ((st_log s0 = [returned SyncPlaywrightEnter; (ChromiumLaunch true, Some e)] \/
    st_log s0 = [returned SyncPlaywrightEnter; returned (ChromiumLaunch true);
                 (NewPage the_browser, Some e)]) /\
   exists ox,
     st_log (snd (run (main exec) w)) = st_log s0 ++ [(SyncPlaywrightExit, ox)] /\
     fst (run (main exec) w) = replaced_by ox (Raises e)).
Proof.
  unfold run. rewrite main_unfold.
  unfold acquire, start, with_as, sync_playwright_enter, launch, new_page, bind, ret,
    perform, the_browser, the_page.
  cbn [st_world st_log].
  destruct (exec SyncPlaywrightEnter w) as [[e0|] w0]; cbn [st_world st_log].
  { intros H. inversion H; subst. left. split; reflexivity. }
  destruct (exec (ChromiumLaunch true) w0) as [[e1|] w1]; cbn [st_world st_log].
  { intros H. inversion H; subst. right. split; [left; reflexivity|].
    destruct (exec SyncPlaywrightExit w1) as [[ex|] w3]; cbn [st_world st_log fst snd];
      eexists; split; reflexivity. }
  destruct (exec (NewPage (chromium_launch true)) w1) as [[e2|] w2]; cbn [st_world st_log].
  { intros H. inversion H; subst. right. split; [right; reflexivity|].
    destruct (exec SyncPlaywrightExit w2) as [[ex|] w3]; cbn [st_world st_log fst snd];
      eexists; split; reflexivity. }
  intros H. discriminate H.
Qed.

(** When it does: the procedure's events, what the [try] statement makes of
    its outcome, [browser.close()], the exit of the [with] block; the exit's
    exception replaces that of [close], which replaces what was pending. *)
Lemma main_when_acquired w b page (s0 : @state World) :
  acquire exec (start w) = (Returns (b, page), s0) ->
  exists pevs evs rm oc ox,
    st_log (snd (verify_password_toggle exec page s0)) = st_log s0 ++ pevs /\
    straight_line (procedure_steps page) (fst (verify_password_toggle exec page s0)) pevs /\
    after_procedure page (fst (verify_password_toggle exec page s0)) rm evs /\
    st_log (snd (run (main exec) w)) =
      st_log s0 ++ pevs ++ evs ++ [(BrowserClose b, oc); (SyncPlaywrightExit, ox)] /\
    fst (run (main exec) w) = replaced_by ox (replaced_by oc rm).
Proof.
  intros Hacq.
  destruct (main_after_acquire exec _ _ _ _ Hacq) as (ox & Hlog & Hres).
  destruct (guarded_run_shape exec b page s0) as (evs & rm & oc & Hg & Hafter & Hr).
  destruct (procedure_log exec page s0) as (pevs & Hp & Hsl).
  exists pevs, evs, rm, oc, ox.
  split; [exact Hp|]. split; [exact Hsl|]. split; [exact Hafter|]. split.
  - rewrite Hlog, Hg, Hp, <- !app_assoc. reflexivity.
  - rewrite Hres, Hr. destruct ox, oc; reflexivity.
Qed.

(** X1.  When [sync_playwright()], [launch] or [new_page] raises, the driver
    never enters its [try]: it makes no call but those three and the exit of
    the [with] block, so it neither navigates, nor prints a status line, nor
    calls [browser.close()], even when the browser had been launched and
    only [new_page] failed.  The exit of the [with] block runs exactly when
    [sync_playwright()] had returned, and the driver ends with the exception
    raised, or with the one the exit raises. *)
Theorem acquisition_failure_skips_try_and_close w e (s0 : @state World) :
  acquire exec (start w) = (Raises e, s0) ->
  Forall (fun ev => In (fst ev) [ SyncPlaywrightEnter; ChromiumLaunch true;
                                  NewPage the_browser; SyncPlaywrightExit ])
         (st_log (snd (run (main exec) w))) /\
  (In SyncPlaywrightExit (calls (snd (run (main exec) w))) <->
   In (SyncPlaywrightEnter, None) (st_log (snd (run (main exec) w)))) /\
  (fst (run (main exec) w) = Raises e \/
   exists ex, In (SyncPlaywrightExit, Some ex) (st_log (snd (run (main exec) w))) /\
              fst (run (main exec) w) = Raises ex).
Proof.
  intros Hacq.
  destruct (main_when_acquire_raises w e s0 Hacq)
    as [[Hs0 Hrun] | [Hs0 (ox & Hlog & Hres)]].
  - rewrite Hrun. cbn [fst snd]. unfold calls. rewrite Hs0. split; [|split].
    + repeat constructor.
    + simpl. split; [intros [H|[]]; discriminate H | intros [H|[]]; discriminate H].
    + now left.
  - unfold calls. rewrite Hlog, Hres. split; [|split].
    + destruct Hs0 as [-> | ->]; repeat constructor; simpl; tauto.
    + destruct Hs0 as [-> | ->]; simpl; split; intros _; tauto.
    + destruct ox as [ex|]; [right; exists ex | left; reflexivity].
      split; [|reflexivity]. apply in_or_app. right. now left.
Qed.

(** X2.  With browser and page acquired, an exception of the procedure that
    does not derive from [Exception] (a [KeyboardInterrupt], a [SystemExit])
    passes the [except] clause: after the procedure the run logs only
    [browser.close()] and the exit of the [with] block, so no status line is
    printed and no failure screenshot is attempted; the driver ends with an
    exception, that of the exit if it raises, else that of [close] if it
    raises, else the procedure's own. *)
Theorem non_exception_is_not_caught w b page (s0 s1 : @state World) e :
  acquire exec (start w) = (Returns (b, page), s0) ->
  verify_password_toggle exec page s0 = (Raises e, s1) ->
  isinstance_Exception e = false ->
  exists oc ox,
    st_log (snd (run (main exec) w)) =
      st_log s1 ++ [(BrowserClose b, oc); (SyncPlaywrightExit, ox)] /\
    fst (run (main exec) w) =
      Raises (match ox with
              | Some x => x
              | None => match oc with Some x => x | None => e end
              end).
Proof.
  intros Hacq Hv Hexc.
  destruct (main_when_acquired w b page s0 Hacq)
    as (pevs & evs & rm & oc & ox & Hp & _ & Hafter & Hlog & Hres).
  rewrite Hv in *. cbn [fst snd after_procedure] in *.
  unfold caught_by_handler in Hafter. rewrite Hexc in Hafter.
  destruct Hafter as [-> ->].
  exists oc, ox. split.
  - rewrite Hlog, Hp, <- app_assoc. reflexivity.
  - rewrite Hres. destruct ox, oc; reflexivity.
Qed.

(** X3.  The success line is printed inside the [try].  If the procedure
    returned and that [print] raises an error [e] (an exception derived from
    [Exception]), the [except] clause handles [e] like a failed check: after
    the failed print the run logs the handler's steps for [e] (the failure
    line with the text of [e], [os.makedirs], the failure screenshot, up to
    the first that raises) and then [browser.close()]. *)
Theorem failed_success_print_is_handled b page (s s1 : @state World) e w' :
  verify_password_toggle exec page s = (Returns tt, s1) ->
  exec (Print "Verification successful!") (st_world s1) = (Some e, w') ->
  isinstance_Exception e = true ->
  exists hevs rh oc,
    st_log (snd (guarded_run exec b page s)) =
      st_log s1 ++ (Print "Verification successful!", Some e) :: hevs
                ++ [(BrowserClose b, oc)] /\
    straight_line (handler_steps page e) rh hevs /\
    fst (guarded_run exec b page s) = replaced_by oc rh.
Proof.
  intros Hv Hprint Hexc.
  unfold guarded_run, try_except_finally, bind, print. rewrite Hv.
  rewrite (perform_raises exec _ _ _ _ Hprint), Hexc.
  destruct (on_failure_log exec page e
              (State w' (st_log s1 ++ [(Print "Verification successful!", Some e)])))
    as (hevs & Hlog & Hsl).
  destruct (on_failure exec page e _) as [rh s2]. cbn [fst snd st_log] in *.
  unfold browser_close, perform.
  destruct (exec (BrowserClose b) (st_world s2)) as [oc w3].
  exists hevs, rh, oc.
  destruct oc; cbn [fst snd st_log replaced_by]; rewrite Hlog, <- !app_assoc;
    (split; [reflexivity|]; split; [exact Hsl | reflexivity]).
Qed.

(** Every run of the driver: either it does not reach its [try], or its log
    is the three acquisition calls, the procedure's events, what the [try]
    statement makes of the procedure's outcome, [close] and the exit. *)
Lemma main_cases w :
  (exists e (s0 : @state World), acquire exec (start w) = (Raises e, s0)) \/
  (exists rp pevs evs rm oc ox,
     straight_line (procedure_steps the_page) rp pevs /\
     after_procedure the_page rp rm evs /\
     st_log (snd (run (main exec) w)) =
       [ returned SyncPlaywrightEnter; returned (ChromiumLaunch true);
         returned (NewPage the_browser) ]
       ++ pevs ++ evs ++ [(BrowserClose the_browser, oc); (SyncPlaywrightExit, ox)] /\
     fst (run (main exec) w) = replaced_by ox (replaced_by oc rm)).
Proof.
  destruct (acquire exec (start w)) as [[[b page]|e] s0] eqn:Hacq; [right | left; eauto].
  destruct (main_when_acquired w b page s0 Hacq)
    as (pevs & evs & rm & oc & ox & _ & Hsl & Hafter & Hlog & Hres).
  destruct (acquire_log exec _ _ _ _ Hacq) as (-> & -> & Hs0).
  rewrite Hs0 in Hlog.
  exists (fst (verify_password_toggle exec the_page s0)), pevs, evs, rm, oc, ox. auto.
Qed.

Ltac expand_caught H :=
  unfold caught_by_handler in H;
  match type of H with
  | context [isinstance_Exception ?e] =>
      let E := fresh "Hexc" in
      destruct (isinstance_Exception e) eqn:E;
      [ apply handler_cases in H;
        destruct H as [(? & -> & ->)|[(? & -> & ->)|[(? & -> & ->)|(-> & ->)]]]
      | destruct H as [-> ->] ]
  end.

Ltac enumerate_step n Hn :=
  cbn in Hn;
  lazymatch type of Hn with
  | None = Some _ => discriminate Hn
  | _ => destruct n as [|n]; [cbn in Hn; inversion Hn; subst; clear Hn | enumerate_step n Hn]
  end.

(** Splits a run that reached its [try] into its concrete logs. *)
Ltac enumerate_runs rp Hsl Hafter :=
  destruct rp as [[]|?e];
  [ cbn [straight_line] in Hsl; subst;
    cbn [after_procedure] in Hafter;
    destruct Hafter as [[-> ->] | (?e & ?hevs & -> & Hafter)];
    [ | expand_caught Hafter ]
  | cbn [after_procedure] in Hafter;
    let n := fresh "n" in let c := fresh "c" in let Hn := fresh "Hn" in
    destruct Hsl as (n & c & Hn & ->);
    unfold procedure_steps in Hn;
    expand_caught Hafter; enumerate_step n Hn ].

Ltac scan_log i H :=
  cbn in H;
  lazymatch type of H with
  | None = Some _ => discriminate H
  | _ => destruct i as [|i];
         [ cbn in H; first [discriminate H | inversion H; subst; clear H] | scan_log i H ]
  end.

(** X4.  In every run of the driver, a [page.screenshot] call comes
    immediately after an [os.makedirs] call on the output directory with
    [exist_ok=True] that returned, on the success path and in the failure
    handler alike; it is made on the driver's page, without [full_page], to
    one of the two fixed paths. *)
Theorem screenshot_follows_makedirs w i pg path full_page o :
  st_log (snd (run (main exec) w)) !! i = Some (Screenshot pg path full_page, o) ->
  (exists j, i = S j /\
     st_log (snd (run (main exec) w)) !! j =
       Some (Makedirs "/home/jules/verification" true, None)) /\
  pg = the_page /\ full_page = None /\
  (path = "/home/jules/verification/password_toggle.png" \/
   path = "/home/jules/verification/failure.png").
Proof.
  intros H.
  destruct (main_cases w) as [(e & s0 & Hacq) | (rp & pevs & evs & rm & oc & ox & Hsl & Hafter & Hlog & _)].
  - destruct (main_when_acquire_raises w e s0 Hacq)
      as [[Hs0 Hrun] | [Hs0 (ox & Hlog & _)]].
    + rewrite Hrun in H. cbn [snd] in H. rewrite Hs0 in H. scan_log i H.
    + rewrite Hlog in H. destruct Hs0 as [Hs0|Hs0]; rewrite Hs0 in H; scan_log i H.
  - rewrite Hlog in *. clear Hlog.
    enumerate_runs rp Hsl Hafter;
      scan_log i H;
      (split; [eexists; split; reflexivity | repeat split; auto]).
Qed.

Ltac scan_in H :=
  cbn in H;
  repeat (destruct H as [H|H];
          [ try discriminate H; try (inversion H; subst; clear H) | ]);
  try contradiction.

Ltac find_in := cbn; repeat (first [left; reflexivity | right]).

(** X5.  "Verification successful!" is only ever printed after all eleven
    steps of the procedure were performed, in order, and each returned: a
    log in which the success line was attempted starts with the acquisition
    calls and the full list of steps, all returned, followed by that print. *)
Theorem success_line_only_after_all_steps w o :
  In (Print "Verification successful!", o) (st_log (snd (run (main exec) w))) ->
  exists post,
    st_log (snd (run (main exec) w)) =
      [ returned SyncPlaywrightEnter; returned (ChromiumLaunch true);
        returned (NewPage the_browser) ]
      ++ map returned (procedure_steps the_page)
      ++ (Print "Verification successful!", o) :: post.
Proof.
  intros H.
  destruct (main_cases w) as [(e & s0 & Hacq) | (rp & pevs & evs & rm & oc & ox & Hsl & Hafter & Hlog & _)].
  - exfalso.
    destruct (main_when_acquire_raises w e s0 Hacq)
      as [[Hs0 Hrun] | [Hs0 (ox & Hlog & _)]].
    + rewrite Hrun in H. cbn [snd] in H. rewrite Hs0 in H. scan_in H.
    + rewrite Hlog in H. destruct Hs0 as [Hs0|Hs0]; rewrite Hs0 in H; scan_in H.
  - rewrite Hlog in *. clear Hlog. unfold failure_message in *.
    enumerate_runs rp Hsl Hafter; scan_in H; eexists; reflexivity.
Qed.

(** X6.  When the driver returns normally, exactly one status line was
    printed and a screenshot was taken and returned, and the two agree:
    either no call of the run raised, the line is the success line and the
    success screenshot was taken; or exactly one call raised, with an error
    [e] derived from [Exception], the line is the failure line with the
    text of [e], and the failure screenshot was taken. *)
Theorem normal_completion_means_one_line_and_one_matching_screenshot w :
  fst (run (main exec) w) = Returns tt ->
  exists line shot,
    printed_lines (st_log (snd (run (main exec) w))) = [(Print line, None)] /\
    In (Screenshot the_page shot None, None) (st_log (snd (run (main exec) w))) /\
    ((raised_events (st_log (snd (run (main exec) w))) = [] /\
      line = "Verification successful!" /\
      shot = "/home/jules/verification/password_toggle.png") \/
     (exists c e,
        raised_events (st_log (snd (run (main exec) w))) = [(c, Some e)] /\
        isinstance_Exception e = true /\
        line = failure_message e /\
        shot = "/home/jules/verification/failure.png")).
Proof.
  intros H.
  destruct (main_cases w) as [(e & s0 & Hacq) | (rp & pevs & evs & rm & oc & ox & Hsl & Hafter & Hlog & Hres)].
  - exfalso.
    destruct (main_when_acquire_raises w e s0 Hacq)
      as [[_ Hrun] | [_ (ox & _ & Hres)]].
    + rewrite Hrun in H. discriminate H.
    + rewrite Hres in H. destruct ox; discriminate H.
  - rewrite Hlog. clear Hlog. rewrite Hres in H. clear Hres.
    destruct ox; [discriminate H|]. destruct oc; [discriminate H|].
    cbn [replaced_by] in H. revert H.
    enumerate_runs rp Hsl Hafter; intros H; try discriminate H;
      first
        [ exists "Verification successful!", "/home/jules/verification/password_toggle.png";
          split; [reflexivity|]; split; [find_in|];
          left; repeat split; reflexivity
        | eexists (failure_message _), "/home/jules/verification/failure.png";
          split; [reflexivity|]; split; [find_in|];
          right; eexists _, _; repeat split; try reflexivity; assumption ].
Qed.

(** A success screenshot that returned was preceded by all eleven steps. *)
Lemma returned_success_screenshot_means_pass w pg full_page :
  In (Screenshot pg "/home/jules/verification/password_toggle.png" full_page, None)
     (st_log (snd (run (main exec) w))) ->
  exists post,
    st_log (snd (run (main exec) w)) =
      [ returned SyncPlaywrightEnter; returned (ChromiumLaunch true);
        returned (NewPage the_browser) ]
      ++ map returned (procedure_steps the_page) ++ post.
Proof.
  intros H.
  destruct (main_cases w) as [(e & s0 & Hacq) | (rp & pevs & evs & rm & oc & ox & Hsl & Hafter & Hlog & _)].
  - exfalso.
    destruct (main_when_acquire_raises w e s0 Hacq)
      as [[Hs0 Hrun] | [Hs0 (ox & Hlog & _)]].
    + rewrite Hrun in H. cbn [snd] in H. rewrite Hs0 in H. scan_in H.
    + rewrite Hlog in H. destruct Hs0 as [Hs0|Hs0]; rewrite Hs0 in H; scan_in H.
  - rewrite Hlog in *. clear Hlog.
    enumerate_runs rp Hsl Hafter; scan_in H; eexists; reflexivity.
Qed.

(** A failure screenshot that returned was preceded by a call that raised
    an [Exception] and by the failure line for it, printed. *)
Lemma returned_failure_screenshot_means_caught w pg full_page :
  In (Screenshot pg "/home/jules/verification/failure.png" full_page, None)
     (st_log (snd (run (main exec) w))) ->
  exists c e,
    isinstance_Exception e = true /\
    In (c, Some e) (st_log (snd (run (main exec) w))) /\
    In (Print (failure_message e), None) (st_log (snd (run (main exec) w))).
Proof.
  intros H.
  destruct (main_cases w) as [(e & s0 & Hacq) | (rp & pevs & evs & rm & oc & ox & Hsl & Hafter & Hlog & _)].
  - exfalso.
    destruct (main_when_acquire_raises w e s0 Hacq)
      as [[Hs0 Hrun] | [Hs0 (ox & Hlog & _)]].
    + rewrite Hrun in H. cbn [snd] in H. rewrite Hs0 in H. scan_in H.
    + rewrite Hlog in H. destruct Hs0 as [Hs0|Hs0]; rewrite Hs0 in H; scan_in H.
  - rewrite Hlog in *. clear Hlog.
    enumerate_runs rp Hsl Hafter; scan_in H;
      match goal with
      | Hx : isinstance_Exception ?e = true |- _ =>
          eexists _, e; split; [exact Hx|]; split; find_in
      end.
Qed.

End DriverPaths.

(** ** What a passing run proves, and what a run leaves on disk, in [Env] *)

Lemma perform_all_returns_inv {World} (exec : call -> World -> option exn * World)
    c cs (s s1 : @state World) :
  perform_all exec (c :: cs) s = (Returns tt, s1) ->
  exists w', exec c (st_world s) = (None, w') /\
             perform_all exec cs (State w' (st_log s ++ [returned c])) = (Returns tt, s1).
Proof.
  simpl. unfold bind, perform.
  destruct (exec c (st_world s)) as [[e|] w']; intros H; [discriminate H|].
  exists w'. split; [reflexivity | exact H].
Qed.

Lemma on_single_returns l none w k w' :
  Env.on_single l none w k = (None, w') ->
  exists dom i el,
    Env.w_page w = Some dom /\ Env.resolve l dom = [i] /\ dom !! i = Some el /\
    k i el dom = (None, w').
Proof.
  unfold Env.on_single.
  destruct (Env.w_page w) as [dom|] eqn:Ep; [|intros H; discriminate H].
  destruct (Env.resolve l dom) as [|i [|? ?]] eqn:Er; intros H; try discriminate H.
  destruct (dom !! i) as [el|] eqn:E; [|discriminate H].
  exists dom, i, el. repeat split; auto.
Qed.

(** A passed attribute assertion: one element matched and it has the value. *)
Lemma expect_attribute_returns l name v w w' :
  Env.exec (ExpectToHaveAttribute l name v) w = (None, w') ->
  w' = w /\
  exists dom i el,
    Env.w_page w = Some dom /\ Env.resolve l dom = [i] /\ dom !! i = Some el /\
    Env.get_attribute name (Env.el_attrs el) = Some v.
Proof.
  simpl. intros H. apply on_single_returns in H as (dom & i & el & Hp & Hr & Hel & Hk).
  destruct (Env.get_attribute name (Env.el_attrs el)) as [v'|] eqn:Ea; [|discriminate Hk].
  destruct (String.eqb v' v) eqn:E; [|discriminate Hk].
  apply String.eqb_eq in E. subst v'. inversion Hk; subst.
  split; [reflexivity|]. exists dom, i, el. repeat split; auto.
Qed.

(** A passed visibility assertion: one element matched and it is visible. *)
Lemma expect_visible_returns l w w' :
  Env.exec (ExpectToBeVisible l) w = (None, w') ->
  w' = w /\
  exists dom i el,
    Env.w_page w = Some dom /\ Env.resolve l dom = [i] /\ dom !! i = Some el /\
    Env.el_visible el = true.
Proof.
  simpl. intros H. apply on_single_returns in H as (dom & i & el & Hp & Hr & Hel & Hk).
  destruct (Env.el_visible el) eqn:E; [|discriminate Hk]. inversion Hk; subst.
  split; [reflexivity|]. exists dom, i, el. repeat split; auto.
Qed.

Lemma makedirs_keeps_page p ok w :
  Env.w_page (snd (Env.exec (Makedirs p ok) w)) = Env.w_page w.
Proof. simpl. destruct (Env.fs_makedirs p ok (Env.w_fs w)). reflexivity. Qed.

Lemma fs_makedirs_files p ok fs :
  Env.fs_files (snd (Env.fs_makedirs p ok fs)) = Env.fs_files fs.
Proof.
  unfold Env.fs_makedirs.
  repeat match goal with |- context [if ?b then _ else _] => destruct b end; reflexivity.
Qed.

(** A screenshot that returned stored the page as it was. *)
Lemma screenshot_returns pg p full_page w w' :
  Env.exec (Screenshot pg p full_page) w = (None, w') ->
  exists dom,
    Env.w_page w = Some dom /\ Env.w_page w' = Some dom /\
    Env.fs_files (Env.w_fs w') !! p = Some (Env.Image (captures_full_page full_page) dom).
Proof.
  simpl. destruct (Env.w_page w) as [dom|] eqn:Ep; [|intros H; discriminate H].
  destruct (Env.fs_write _ _ _ _) as [o fs'] eqn:Ew. intros H. inversion H; subst.
  exists dom. split; [reflexivity|]. split; [exact Ep|].
  cbn [Env.w_fs Env.set_fs].
  unfold Env.fs_write in Ew.
  destruct (Env.is_dir (Env.w_fs w) p); [discriminate Ew|].
  destruct (if Env.w_screenshot_makes_dirs w then _ else _) as [[e|] fs1];
    [discriminate Ew|].
  destruct (negb (Env.is_dir fs1 (dirname p))); [discriminate Ew|].
  destruct (Env.fs_writable fs1); [|discriminate Ew].
  inversion Ew; subst. cbn [Env.fs_files]. apply lookup_insert_eq.
Qed.

(** X7.  In [Env], when the procedure returns, the page it leaves is in the
    revealed state the assertions checked: the exact "Password" lookup
    resolves to a single element whose [type] attribute is "text", the
    "Hide password" lookup resolves to a single element and it is visible;
    and the image stored at the success path is a viewport capture of that
    very page. *)
Theorem passing_run_leaves_revealed_page page (s s1 : @state Env.world) :
  verify_password_toggle Env.exec page s = (Returns tt, s1) ->
  exists dom i j field toggle,
    Env.w_page (st_world s1) = Some dom /\
    Env.resolve (password_locator page) dom = [i] /\
    dom !! i = Some field /\
    Env.get_attribute "type" (Env.el_attrs field) = Some "text" /\
    Env.resolve (hide_locator page) dom = [j] /\
    dom !! j = Some toggle /\
    Env.el_visible toggle = true /\
    Env.fs_files (Env.w_fs (st_world s1)) !! "/home/jules/verification/password_toggle.png"
      = Some (Env.Image false dom).
Proof.
  intros H. rewrite verify_password_toggle_unfold in H. unfold procedure_steps in H.
  do 5 (apply perform_all_returns_inv in H as (? & _ & H)).
  apply perform_all_returns_inv in H as (w6 & _ & H).
  apply perform_all_returns_inv in H as (w7 & E7 & H).
  apply perform_all_returns_inv in H as (w8 & E8 & H).
  apply perform_all_returns_inv in H as (w9 & E9 & H).
  apply perform_all_returns_inv in H as (w10 & E10 & H).
  apply perform_all_returns_inv in H as (w11 & E11 & H).
  simpl in H. unfold ret in H. inversion H; subst s1. clear H.
  cbn [st_world] in *.
  apply expect_attribute_returns in E7 as (-> & dom & i & field & Hp & Hi & Hf & Ht).
  simpl in E8. inversion E8; subst w8. clear E8.
  apply expect_visible_returns in E9 as (-> & dom' & j & toggle & Hp' & Hj & Htg & Hv).
  rewrite Hp in Hp'. inversion Hp'; subst dom'. clear Hp'.
  pose proof (makedirs_keeps_page "/home/jules/verification" true w6) as Hk.
  rewrite E10 in Hk. cbn [snd] in Hk.
  apply screenshot_returns in E11 as (dom'' & Hp10 & Hp11 & Hfile).
  rewrite Hk, Hp in Hp10. inversion Hp10; subst dom''.
  exists dom, i, j, field, toggle. repeat split; assumption.
Qed.

(** The paths the driver's calls name. *)
Lemma main_performs_paths c :
  main_performs c ->
  (forall p ok, c = Makedirs p ok -> p = "/home/jules/verification" /\ ok = true) /\
  (forall pg p full_page, c = Screenshot pg p full_page ->
     p = "/home/jules/verification/password_toggle.png" \/
     p = "/home/jules/verification/failure.png").
Proof.
  intros [Hin | (e & ->)].
  - simpl in Hin.
    repeat (destruct Hin as [<- | Hin];
            [split; intros; try discriminate;
             match goal with H : _ = _ |- _ => inversion H; auto end|]).
    contradiction.
  - split; intros; discriminate.
Qed.

Lemma fs_write_files_other mk q img fs p :
  q <> p ->
  Env.fs_files (snd (Env.fs_write mk q img fs)) !! p = Env.fs_files fs !! p.
Proof.
  intros Hne. unfold Env.fs_write.
  destruct (Env.is_dir fs q); [reflexivity|].
  assert (H1 : Env.fs_files
            (snd (if mk then Env.fs_makedirs (dirname q) true fs else (None, fs)))
            = Env.fs_files fs).
  { destruct mk; [apply fs_makedirs_files | reflexivity]. }
  destruct (if mk then _ else _) as [[e|] fs1]; cbn [snd] in *;
    [now rewrite H1|].
  destruct (negb (Env.is_dir fs1 (dirname q))); cbn [snd]; [now rewrite H1|].
  destruct (Env.fs_writable fs1); cbn [snd Env.fs_files]; [|now rewrite H1].
  rewrite lookup_insert_ne by exact Hne. now rewrite H1.
Qed.

(** Only a screenshot writes a file, and only at the path it is given. *)
Lemma exec_files_other c w p :
  (forall pg q full_page, c = Screenshot pg q full_page -> q <> p) ->
  Env.fs_files (Env.w_fs (snd (Env.exec c w))) !! p = Env.fs_files (Env.w_fs w) !! p.
Proof.
  intros Hc. destruct c; simpl;
    try (rewrite on_single_fs;
         [reflexivity | intros; repeat match goal with
                            | |- context [if ?b then _ else _] => destruct b
                            | |- context [match ?o with Some _ => _ | None => _ end] => destruct o
                            end; reflexivity]);
    try reflexivity.
  - destruct (Env.w_chromium_installed w); reflexivity.
  - destruct (Env.w_browser_open w); reflexivity.
  - destruct (Env.w_page w); [|reflexivity]. destruct (Env.w_server w url); reflexivity.
  - pose proof (fs_makedirs_files path exist_ok (Env.w_fs w)) as H1.
    destruct (Env.fs_makedirs path exist_ok (Env.w_fs w)). cbn [snd Env.w_fs Env.set_fs] in *.
    now rewrite H1.
  - destruct (Env.w_page w) as [dom|]; [|reflexivity].
    pose proof (fs_write_files_other (Env.w_screenshot_makes_dirs w) path
                  (Env.Image (captures_full_page full_page) dom) (Env.w_fs w) p
                  (Hc _ _ _ eq_refl)) as H1.
    destruct (Env.fs_write _ _ _ _). exact H1.
  - destruct (Env.w_stdout_open w); reflexivity.
Qed.

Lemma fs_makedirs_dirs_bound fs q :
  q ∈ Env.fs_dirs (snd (Env.fs_makedirs "/home/jules/verification" true fs)) ->
  q ∈ Env.fs_dirs fs \/
  In q ["/home/jules/verification"; "/home"; "/home/jules"].
Proof.
  unfold Env.fs_makedirs.
  repeat match goal with |- context [if ?b then _ else _] => destruct b end;
    cbn [snd Env.fs_dirs]; auto.
  change (ancestors "/home/jules/verification") with ["/home"; "/home/jules"].
  rewrite !elem_of_union, elem_of_singleton, elem_of_list_to_set.
  intros [[H|H]|H]; [now left | right; now left |].
  apply list_elem_of_In in H. right. now right.
Qed.

Lemma fs_write_dirs_bound mk p img fs q :
  dirname p = "/home/jules/verification" ->
  q ∈ Env.fs_dirs (snd (Env.fs_write mk p img fs)) ->
  q ∈ Env.fs_dirs fs \/
  In q ["/home/jules/verification"; "/home"; "/home/jules"].
Proof.
  intros Hd. unfold Env.fs_write. rewrite Hd.
  destruct (Env.is_dir fs p); [auto|].
  assert (H1 : q ∈ Env.fs_dirs
            (snd (if mk then Env.fs_makedirs "/home/jules/verification" true fs
                  else (None, fs))) ->
            q ∈ Env.fs_dirs fs \/
            In q ["/home/jules/verification"; "/home"; "/home/jules"]).
  { destruct mk; [apply fs_makedirs_dirs_bound | auto]. }
  destruct (if mk then _ else _) as [[e|] fs1]; cbn [snd] in *; [exact H1|].
  repeat match goal with |- context [if ?b then _ else _] => destruct b end;
    cbn [snd Env.fs_dirs]; exact H1.
Qed.

(** The only directories a call of the driver can add are the output
    directory and its ancestors. *)
Lemma exec_dirs_bound c w q :
  main_performs c ->
  q ∈ Env.fs_dirs (Env.w_fs (snd (Env.exec c w))) ->
  q ∈ Env.fs_dirs (Env.w_fs w) \/
  In q ["/home/jules/verification"; "/home"; "/home/jules"].
Proof.
  intros Hc. destruct (main_performs_paths c Hc) as [Hmk Hshot].
  destruct c; simpl;
    try (rewrite on_single_fs;
         [auto | intros; repeat match goal with
                            | |- context [if ?b then _ else _] => destruct b
                            | |- context [match ?o with Some _ => _ | None => _ end] => destruct o
                            end; reflexivity]);
    auto.
  - destruct (Env.w_chromium_installed w); auto.
  - destruct (Env.w_browser_open w); auto.
  - destruct (Env.w_page w); [|auto]. destruct (Env.w_server w url); auto.
  - destruct (Hmk _ _ eq_refl) as [-> ->].
    pose proof (fs_makedirs_dirs_bound (Env.w_fs w) q) as H1.
    destruct (Env.fs_makedirs _ true (Env.w_fs w)). exact H1.
  - destruct (Env.w_page w) as [dom|]; [|auto].
    assert (Hd : dirname path = "/home/jules/verification")
      by (destruct (Hshot _ _ _ eq_refl) as [-> | ->]; reflexivity).
    pose proof (fs_write_dirs_bound (Env.w_screenshot_makes_dirs w) path
                  (Env.Image (captures_full_page full_page) dom) (Env.w_fs w) q Hd) as H1.
    destruct (Env.fs_write _ _ _ _). exact H1.
  - destruct (Env.w_stdout_open w); auto.
Qed.

(** X8.  In [Env], a run of the driver touches the disk only for its two
    artifacts: a file at any path other than the two screenshot paths is
    after the run what it was before (present with the same content, or
    absent); no directory is removed; and the only directories that can be
    new are the output directory and its ancestors. *)
Theorem run_writes_only_its_two_screenshots (w : Env.world) (p : string) :
  p <> "/home/jules/verification/password_toggle.png" ->
  p <> "/home/jules/verification/failure.png" ->
  Env.fs_files (Env.w_fs (st_world (snd (run (main Env.exec) w)))) !! p =
    Env.fs_files (Env.w_fs w) !! p /\
  (forall q, q ∈ Env.fs_dirs (Env.w_fs w) ->
             q ∈ Env.fs_dirs (Env.w_fs (st_world (snd (run (main Env.exec) w))))) /\
  (forall q, q ∈ Env.fs_dirs (Env.w_fs (st_world (snd (run (main Env.exec) w)))) ->
             q ∈ Env.fs_dirs (Env.w_fs w) \/
             In q ["/home/jules/verification"; "/home"; "/home/jules"]).
Proof.
  intros Hs Hf. unfold run. split; [|split].
  - apply (preserved_main Env.exec
             (fun s => Env.fs_files (Env.w_fs (st_world s)) !! p = Env.fs_files (Env.w_fs w) !! p));
      [|reflexivity].
    intros c Hc s HP. unfold perform.
    pose proof (exec_files_other c (st_world s) p) as H1.
    destruct (Env.exec c (st_world s)) as [o w']. cbn [snd st_world] in *.
    rewrite H1; [exact HP|].
    intros pg q fp ->. destruct (main_performs_paths _ Hc) as [_ Hshot].
    destruct (Hshot _ _ _ eq_refl) as [-> | ->]; congruence.
  - intros q Hq.
    apply (preserved_main Env.exec
             (fun s => q ∈ Env.fs_dirs (Env.w_fs (st_world s)))); [|exact Hq].
    intros c _ s HP. unfold perform.
    pose proof (exec_dirs_mono c (st_world s) q HP) as H1.
    destruct (Env.exec c (st_world s)) as [o w']. exact H1.
  - intros q.
    apply (preserved_main Env.exec
             (fun s => q ∈ Env.fs_dirs (Env.w_fs (st_world s)) ->
                       q ∈ Env.fs_dirs (Env.w_fs w) \/
                       In q ["/home/jules/verification"; "/home"; "/home/jules"]));
      [|auto].
    intros c Hc s HP. unfold perform.
    pose proof (exec_dirs_bound c (st_world s) q Hc) as H1.
    destruct (Env.exec c (st_world s)) as [o w']. cbn [snd st_world] in *.
    intros Hq. destruct (H1 Hq) as [H2|H2]; auto.
Qed.

(** ** Concrete runs for the further properties *)

(** [new_page] fails after a successful launch: the browser is never closed. *)
Lemma new_page_failure_leaves_browser_unclosed :
  acquire new_page_fails (start tt) =
    (Raises (Exn PlaywrightError "Target page, context or browser has been closed"),
     snd (acquire new_page_fails (start tt))) /\
  Forall (fun ev => In (fst ev) [ SyncPlaywrightEnter; ChromiumLaunch true;
                                  NewPage the_browser; SyncPlaywrightExit ])
         (st_log (snd (run (main new_page_fails) tt))) /\
  (In SyncPlaywrightExit (calls (snd (run (main new_page_fails) tt))) <->
   In (SyncPlaywrightEnter, None) (st_log (snd (run (main new_page_fails) tt)))) /\
  (fst (run (main new_page_fails) tt) =
     Raises (Exn PlaywrightError "Target page, context or browser has been closed") \/
   exists ex, In (SyncPlaywrightExit, Some ex) (st_log (snd (run (main new_page_fails) tt))) /\
              fst (run (main new_page_fails) tt) = Raises ex).
Proof.
  split; [reflexivity|].
  apply (acquisition_failure_skips_try_and_close new_page_fails tt
           (Exn PlaywrightError "Target page, context or browser has been closed")
           (snd (acquire new_page_fails (start tt)))).
  reflexivity.
Defined.

(** Ctrl-C during navigation ends the driver with [KeyboardInterrupt]. *)
Lemma keyboard_interrupt_is_not_caught :
  acquire interrupted_at_goto (start tt) =
    (Returns (the_browser, the_page), snd (acquire interrupted_at_goto (start tt))) /\
  exists oc ox,
    st_log (snd (run (main interrupted_at_goto) tt)) =
      st_log (snd (verify_password_toggle interrupted_at_goto the_page
                     (snd (acquire interrupted_at_goto (start tt)))))
      ++ [(BrowserClose the_browser, oc); (SyncPlaywrightExit, ox)] /\
    fst (run (main interrupted_at_goto) tt) =
      Raises (match ox with
              | Some x => x
              | None => match oc with Some x => x | None => Exn KeyboardInterrupt "" end
              end).
Proof.
  split; [reflexivity|].
  apply (non_exception_is_not_caught interrupted_at_goto tt the_browser the_page
           (snd (acquire interrupted_at_goto (start tt)))
           (snd (verify_password_toggle interrupted_at_goto the_page
                   (snd (acquire interrupted_at_goto (start tt)))))
           (Exn KeyboardInterrupt "")); reflexivity.
Defined.

(** With standard output closed every check passes, and the run is
    reported, or rather attempted to be reported, as a failure. *)
Lemma closed_stdout_turns_success_into_failure :
  verify_password_toggle Env.exec the_page (at_try closed_stdout_world) =
    (Returns tt, snd (verify_password_toggle Env.exec the_page (at_try closed_stdout_world))) /\
  exists hevs rh oc,
    st_log (snd (guarded_run Env.exec the_browser the_page (at_try closed_stdout_world))) =
      st_log (snd (verify_password_toggle Env.exec the_page (at_try closed_stdout_world)))
      ++ (Print "Verification successful!", Some (Exn BrokenPipeError "Broken pipe")) :: hevs
      ++ [(BrowserClose the_browser, oc)] /\
    straight_line (handler_steps the_page (Exn BrokenPipeError "Broken pipe")) rh hevs /\
    fst (guarded_run Env.exec the_browser the_page (at_try closed_stdout_world)) =
      replaced_by oc rh.
Proof.
  split; [vm_compute; reflexivity|].
  apply (failed_success_print_is_handled Env.exec the_browser the_page
           (at_try closed_stdout_world)
           (snd (verify_password_toggle Env.exec the_page (at_try closed_stdout_world)))
           (Exn BrokenPipeError "Broken pipe")
           (st_world (snd (verify_password_toggle Env.exec the_page
                             (at_try closed_stdout_world))))).
  - vm_compute; reflexivity.
  - vm_compute; reflexivity.
  - reflexivity.
Defined.

(** The success screenshot of the working run is event 13, after [makedirs]. *)
Lemma success_screenshot_follows_makedirs :
  st_log (snd (run (main Env.exec) Env.good_world)) !! 13%nat =
    Some (Screenshot the_page "/home/jules/verification/password_toggle.png" None, None) /\
  (exists j, 13%nat = S j /\
     st_log (snd (run (main Env.exec) Env.good_world)) !! j =
       Some (Makedirs "/home/jules/verification" true, None)) /\
  the_page = the_page /\ @None bool = None /\
  ("/home/jules/verification/password_toggle.png" =
     "/home/jules/verification/password_toggle.png" \/
   "/home/jules/verification/password_toggle.png" = "/home/jules/verification/failure.png").
Proof.
  split; [vm_compute; reflexivity|].
  apply (screenshot_follows_makedirs Env.exec Env.good_world 13 the_page
           "/home/jules/verification/password_toggle.png" None None).
  vm_compute; reflexivity.
Defined.

(** The working run prints the success line after all eleven steps. *)
Lemma success_line_of_the_working_run :
  In (Print "Verification successful!", None)
     (st_log (snd (run (main Env.exec) Env.good_world))) /\
  exists post,
    st_log (snd (run (main Env.exec) Env.good_world)) =
      [ returned SyncPlaywrightEnter; returned (ChromiumLaunch true);
        returned (NewPage the_browser) ]
      ++ map returned (procedure_steps the_page)
      ++ (Print "Verification successful!", None) :: post.
Proof.
  assert (H : In (Print "Verification successful!", None)
                 (st_log (snd (run (main Env.exec) Env.good_world)))).
  { vm_compute. tauto. }
  split; [exact H|].
  exact (success_line_only_after_all_steps Env.exec Env.good_world None H).
Defined.

(** The working run returns: one line, one screenshot, nothing raised. *)
Lemma normal_completion_of_the_working_run :
  fst (run (main Env.exec) Env.good_world) = Returns tt /\
  exists line shot,
    printed_lines (st_log (snd (run (main Env.exec) Env.good_world))) = [(Print line, None)] /\
    In (Screenshot the_page shot None, None) (st_log (snd (run (main Env.exec) Env.good_world))) /\
    ((raised_events (st_log (snd (run (main Env.exec) Env.good_world))) = [] /\
      line = "Verification successful!" /\
      shot = "/home/jules/verification/password_toggle.png") \/
     (exists c e,
        raised_events (st_log (snd (run (main Env.exec) Env.good_world))) = [(c, Some e)] /\
        isinstance_Exception e = true /\
        line = failure_message e /\
        shot = "/home/jules/verification/failure.png")).
Proof.
  split; [vm_compute; reflexivity|].
  apply (normal_completion_means_one_line_and_one_matching_screenshot Env.exec Env.good_world).
  vm_compute; reflexivity.
Defined.

(** The working run leaves the field revealed and the screenshot shows it. *)
Lemma working_run_leaves_revealed_page :
  verify_password_toggle Env.exec the_page (at_try Env.good_world) =
    (Returns tt, snd (verify_password_toggle Env.exec the_page (at_try Env.good_world))) /\
  exists dom i j field toggle,
    Env.w_page (st_world (snd (verify_password_toggle Env.exec the_page
                                 (at_try Env.good_world)))) = Some dom /\
    Env.resolve (password_locator the_page) dom = [i] /\
    dom !! i = Some field /\
    Env.get_attribute "type" (Env.el_attrs field) = Some "text" /\
    Env.resolve (hide_locator the_page) dom = [j] /\
    dom !! j = Some toggle /\
    Env.el_visible toggle = true /\
    Env.fs_files (Env.w_fs (st_world (snd (verify_password_toggle Env.exec the_page
                                             (at_try Env.good_world)))))
      !! "/home/jules/verification/password_toggle.png" = Some (Env.Image false dom).
Proof.
  split; [vm_compute; reflexivity|].
  apply (passing_run_leaves_revealed_page the_page (at_try Env.good_world)).
  vm_compute; reflexivity.
Defined.

(** The failing run with the application down leaves other paths alone. *)
Lemma other_paths_untouched_when_server_is_down :
  "/home/jules/notes.txt" <> "/home/jules/verification/password_toggle.png" /\
  "/home/jules/notes.txt" <> "/home/jules/verification/failure.png" /\
  Env.fs_files (Env.w_fs (st_world (snd (run (main Env.exec) Env.server_down_world))))
    !! "/home/jules/notes.txt" =
    Env.fs_files (Env.w_fs Env.server_down_world) !! "/home/jules/notes.txt" /\
  (forall q, q ∈ Env.fs_dirs (Env.w_fs Env.server_down_world) ->
             q ∈ Env.fs_dirs (Env.w_fs (st_world (snd (run (main Env.exec)
                                                       Env.server_down_world))))) /\
  (forall q, q ∈ Env.fs_dirs (Env.w_fs (st_world (snd (run (main Env.exec)
                                                       Env.server_down_world)))) ->
             q ∈ Env.fs_dirs (Env.w_fs Env.server_down_world) \/
             In q ["/home/jules/verification"; "/home"; "/home/jules"]).
Proof.
  assert (H1 : "/home/jules/notes.txt" <> "/home/jules/verification/password_toggle.png")
    by discriminate.
  assert (H2 : "/home/jules/notes.txt" <> "/home/jules/verification/failure.png")
    by discriminate.
  split; [exact H1|]. split; [exact H2|].
  exact (run_writes_only_its_two_screenshots Env.server_down_world
           "/home/jules/notes.txt" H1 H2).
Defined.

(** ** Artifacts and outcomes in [Env] *)

Lemma env_procedure_raises_Exception page (s s1 : @state Env.world) e :
  verify_password_toggle Env.exec page s = (Raises e, s1) -> isinstance_Exception e = true.
Proof.
  rewrite verify_password_toggle_unfold. generalize (procedure_steps page). intros cs.
  revert s. induction cs as [|c cs IH]; intros s H; simpl in H; [discriminate H|].
  unfold bind, perform in H.
  destruct (Env.exec c (st_world s)) as [[e'|] w'] eqn:E.
  - inversion H; subst. eapply env_raises_Exception. exact E.
  - eapply IH. exact H.
Qed.

Lemma print_keeps_page_and_files line w :
  Env.w_page (snd (Env.exec (Print line) w)) = Env.w_page w /\
  Env.w_fs (snd (Env.exec (Print line) w)) = Env.w_fs w.
Proof. simpl. destruct (Env.w_stdout_open w); split; reflexivity. Qed.

(** X9.  In [Env], when the procedure raised and the [try] statement then
    completed normally, the image stored at the failure path is a viewport
    capture of the page exactly as the failing step left it: neither the
    failure line nor [os.makedirs] touches the page before the screenshot. *)
Theorem failure_screenshot_shows_the_failing_page b page (s s1 : @state Env.world) e :
  verify_password_toggle Env.exec page s = (Raises e, s1) ->
  fst (guarded_run Env.exec b page s) = Returns tt ->
  exists dom,
    Env.w_page (st_world s1) = Some dom /\
    Env.fs_files (Env.w_fs (st_world (snd (guarded_run Env.exec b page s))))
      !! "/home/jules/verification/failure.png" = Some (Env.Image false dom).
Proof.
  intros Hv.
  pose proof (env_procedure_raises_Exception page s s1 e Hv) as Hexc.
  unfold guarded_run, try_except_finally, bind. rewrite Hv, Hexc.
  rewrite on_failure_unfold.
  destruct (perform_all Env.exec (handler_steps page e) s1) as [[[]|e'] s2] eqn:Eh;
    unfold browser_close, perform; cbn [Env.exec fst snd st_world];
    [|intros H; discriminate H].
  intros _. unfold handler_steps in Eh.
  apply perform_all_returns_inv in Eh as (w1 & E1 & Eh).
  apply perform_all_returns_inv in Eh as (w2 & E2 & Eh).
  apply perform_all_returns_inv in Eh as (w3 & E3 & Eh).
  simpl in Eh. unfold ret in Eh. inversion Eh; subst s2. clear Eh.
  cbn [st_world Env.set_browser Env.w_fs] in *.
  destruct (print_keeps_page_and_files (failure_message e) (st_world s1)) as [Hp1 _].
  rewrite E1 in Hp1. cbn [snd] in Hp1.
  pose proof (makedirs_keeps_page "/home/jules/verification" true w1) as Hp2.
  rewrite E2 in Hp2. cbn [snd] in Hp2.
  apply screenshot_returns in E3 as (dom & Hp3 & _ & Hfile).
  exists dom. split; [|exact Hfile].
  rewrite <- Hp1, <- Hp2. exact Hp3.
Qed.

Lemma fs_write_raises_files mk q img fs e fs' :
  Env.fs_write mk q img fs = (Some e, fs') -> Env.fs_files fs' = Env.fs_files fs.
Proof.
  unfold Env.fs_write.
  destruct (Env.is_dir fs q); [intros H; inversion H; reflexivity|].
  assert (H1 : Env.fs_files
            (snd (if mk then Env.fs_makedirs (dirname q) true fs else (None, fs)))
            = Env.fs_files fs).
  { destruct mk; [apply fs_makedirs_files | reflexivity]. }
  destruct (if mk then _ else _) as [[e1|] fs1]; cbn [snd] in *.
  - intros H. inversion H; subst. exact H1.
  - destruct (negb (Env.is_dir fs1 (dirname q))); [intros H; inversion H; subst; exact H1|].
    destruct (Env.fs_writable fs1); intros H; inversion H; subst. exact H1.
Qed.

(** A file differs after a call only if the call is a screenshot to that
    path and it returned. *)
Lemma exec_changes_file_only_by_screenshot c w p :
  Env.fs_files (Env.w_fs (snd (Env.exec c w))) !! p = Env.fs_files (Env.w_fs w) !! p \/
  exists pg full_page, c = Screenshot pg p full_page /\ fst (Env.exec c w) = None.
Proof.
  destruct c; try (left; apply exec_files_other; intros; discriminate).
  destruct (String.eqb_spec path p) as [-> | Hne].
  - destruct (Env.exec (Screenshot pg p full_page) w) as [[e|] w'] eqn:E.
    + left. cbn [snd]. simpl in E.
      destruct (Env.w_page w) as [dom|]; [|inversion E; reflexivity].
      destruct (Env.fs_write _ _ _ _) as [o fs'] eqn:Ew. inversion E; subst.
      cbn [Env.w_fs Env.set_fs]. now rewrite (fs_write_raises_files _ _ _ _ _ _ Ew).
    + right. eauto.
  - left. apply exec_files_other. intros pg' q fp H. inversion H; subst. exact Hne.
Qed.

Lemma file_changed_by_returned_screenshot (w : Env.world) p :
  Env.fs_files (Env.w_fs (st_world (snd (run (main Env.exec) w)))) !! p =
    Env.fs_files (Env.w_fs w) !! p \/
  exists pg full_page,
    In (Screenshot pg p full_page, None) (st_log (snd (run (main Env.exec) w))).
Proof.
  unfold run.
  apply (preserved_main Env.exec
           (fun s => Env.fs_files (Env.w_fs (st_world s)) !! p = Env.fs_files (Env.w_fs w) !! p \/
                     exists pg full_page, In (Screenshot pg p full_page, None) (st_log s)));
    [|left; reflexivity].
  intros c _ s HP. unfold perform.
  pose proof (exec_changes_file_only_by_screenshot c (st_world s) p) as Hc.
  destruct (Env.exec c (st_world s)) as [o w']. cbn [fst snd st_world st_log] in *.
  destruct HP as [HP | (pg & fp & Hin)].
  - destruct Hc as [Hc | (pg & fp & -> & ->)].
    + left. now rewrite Hc.
    + right. exists pg, fp. apply in_or_app. right. now left.
  - right. exists pg, fp. apply in_or_app. now left.
Qed.

(** X10.  In [Env], the artifacts on disk tell the outcome.  If the file at
    the success path differs after a run from what it was before, all
    eleven steps of the procedure were performed and returned in that run.
    If the file at the failure path differs, some call of the run raised an
    error [e] derived from [Exception] and the failure line with the text
    of [e] was printed. *)
Theorem changed_artifact_tells_the_outcome (w : Env.world) :
  let s := snd (run (main Env.exec) w) in
  (Env.fs_files (Env.w_fs (st_world s)) !! "/home/jules/verification/password_toggle.png" <>
     Env.fs_files (Env.w_fs w) !! "/home/jules/verification/password_toggle.png" ->
   exists post,
     st_log s =
       [ returned SyncPlaywrightEnter; returned (ChromiumLaunch true);
         returned (NewPage the_browser) ]
       ++ map returned (procedure_steps the_page) ++ post) /\
  (Env.fs_files (Env.w_fs (st_world s)) !! "/home/jules/verification/failure.png" <>
     Env.fs_files (Env.w_fs w) !! "/home/jules/verification/failure.png" ->
   exists c e,
     isinstance_Exception e = true /\
     In (c, Some e) (st_log s) /\
     In (Print (failure_message e), None) (st_log s)).
Proof.
  cbn zeta. split; intros Hne.
  - destruct (file_changed_by_returned_screenshot w
                "/home/jules/verification/password_toggle.png") as [H | (pg & fp & H)];
      [contradiction|].
    eapply returned_success_screenshot_means_pass. exact H.
  - destruct (file_changed_by_returned_screenshot w
                "/home/jules/verification/failure.png") as [H | (pg & fp & H)];
      [contradiction|].
    eapply returned_failure_screenshot_means_caught. exact H.
Qed.

(** With the application down the try statement completes and the failure
    screenshot shows the blank page navigation left. *)
Lemma failure_screenshot_of_the_blank_page :
  verify_password_toggle Env.exec the_page (at_try Env.server_down_world) =
    (Raises connection_refused,
     snd (verify_password_toggle Env.exec the_page (at_try Env.server_down_world))) /\
  fst (guarded_run Env.exec the_browser the_page (at_try Env.server_down_world)) = Returns tt /\
  exists dom,
    Env.w_page (st_world (snd (verify_password_toggle Env.exec the_page
                                 (at_try Env.server_down_world)))) = Some dom /\
    Env.fs_files (Env.w_fs (st_world (snd (guarded_run Env.exec the_browser the_page
                                             (at_try Env.server_down_world)))))
      !! "/home/jules/verification/failure.png" = Some (Env.Image false dom).
Proof.
  split; [vm_compute; reflexivity|]. split; [vm_compute; reflexivity|].
  apply (failure_screenshot_shows_the_failing_page the_browser the_page
           (at_try Env.server_down_world)
           (snd (verify_password_toggle Env.exec the_page (at_try Env.server_down_world)))
           connection_refused).
  - vm_compute; reflexivity.
  - vm_compute; reflexivity.
Defined.
